(** * A shallow embedding of the logistics discrete-event simulator

    The development follows the Python sources of the simulation core:
    [tsplib_parser.py], [graph.py], [delays.py], [schema.py] and [engine.py].

    Conventions.
    - Python [float] values (times, distances, coordinates) are rationals [Q];
      equality on them is [Qeq] ([==]).  Rounding, infinities and NaN are not
      part of the model.
    - A raised exception ends the computation: fallible code returns [exc].
    - [dict] objects whose iteration order is observed are insertion-ordered
      association lists ([Py.dict]); the others are [gmap].
    - The standard-library and third-party functions the sources call
      ([heapq], [random], [math], [networkx]) are modelled next to their
      callers; each such model says what it stands for. *)

From Stdlib Require Import Ascii String QArith Qminmax Lqa Lia.
From stdpp Require Import gmap strings list fin_maps pretty.

Local Open Scope nat_scope.

(** ** Exceptions *)

Inductive exn : Type :=
  | KeyError
  | IndexError
  | ValueError
  | TypeError
  | ZeroDivisionError
  | NodeNotFound
  | NetworkXPointlessConcept.

Inductive exc (A : Type) : Type :=
  | Ok (a : A)
  | Raise (e : exn).
Arguments Ok {A} a.
Arguments Raise {A} e.

Global Instance exc_ret : MRet exc := λ A a, Ok a.
Global Instance exc_bind : MBind exc := λ A B k m,
  match m with
  | Ok a => k a
  | Raise e => Raise e
  end.

Global Instance exc_fmap : FMap exc := λ A B f m,
  match m with
  | Ok a => Ok (f a)
  | Raise e => Raise e
  end.

Definition of_option {A : Type} (e : exn) (o : option A) : exc A :=
  match o with
  | Some a => Ok a
  | None => Raise e
  end.

(** A [for] loop whose body may raise *)
Fixpoint fold_exc {A B : Type} (f : A → B → exc A) (l : list B) (a : A) : exc A :=
  match l with
  | [] => Ok a
  | b :: l' => a' ← f a b; fold_exc f l' a'
  end.

(** ** [heapq]: the binary heap of the Python standard library

    [heappush] and [heappop] act on a Python list; [_siftdown] and [_siftup]
    are the two loops of CPython's [heapq.py].  Items are compared with [<]
    only, here the boolean [lt]. *)

Module heapq.
Section Heap.
Context {A : Type} (lt : A → A → bool).

(** [(pos - 1) >> 1] *)
Definition parent_of (pos : nat) : nat := Nat.shiftr (pos - 1) 1.

(** The [while pos > startpos] loop of [_siftdown]; [heap] carries a hole at
    [pos] that [newitem] fills on exit.  [pos] iterations always suffice. *)
Fixpoint siftdown_loop (fuel : nat) (heap : list A) (newitem : A)
    (startpos pos : nat) : list A :=
  match fuel with
  | 0 => <[pos := newitem]> heap
  | S fuel' =>
      if startpos <? pos then
        match heap !! parent_of pos with
        | Some parent =>
            if lt newitem parent
            then siftdown_loop fuel' (<[pos := parent]> heap) newitem
                   startpos (parent_of pos)
            else <[pos := newitem]> heap
        | None => <[pos := newitem]> heap
        end
      else <[pos := newitem]> heap
  end.

Definition _siftdown (heap : list A) (startpos pos : nat) : list A :=
  match heap !! pos with
  | Some newitem => siftdown_loop pos heap newitem startpos pos
  | None => heap
  end.

Definition heappush (heap : list A) (item : A) : list A :=
  _siftdown (heap ++ [item]) 0 (length heap).

(** [heap[i] < heap[j]] *)
Definition item_lt (heap : list A) (i j : nat) : bool :=
  match heap !! i, heap !! j with
  | Some a, Some b => lt a b
  | _, _ => false
  end.

(** The [while childpos < endpos] loop of [_siftup]: the smaller child moves
    up until the hole reaches a leaf.  Returns the heap and the hole. *)
Fixpoint siftup_loop (fuel : nat) (heap : list A) (endpos pos : nat)
    : list A * nat :=
  match fuel with
  | 0 => (heap, pos)
  | S fuel' =>
      let childpos := 2 * pos + 1 in
      if childpos <? endpos then
        let rightpos := childpos + 1 in
        let childpos :=
          if (rightpos <? endpos) && negb (item_lt heap childpos rightpos)
          then rightpos else childpos in
        match heap !! childpos with
        | Some child => siftup_loop fuel' (<[pos := child]> heap) endpos childpos
        | None => (heap, pos)
        end
      else (heap, pos)
  end.

Definition _siftup (heap : list A) (pos : nat) : list A :=
  match heap !! pos with
  | Some newitem =>
      let '(heap', pos') := siftup_loop (length heap) heap (length heap) pos in
      _siftdown (<[pos' := newitem]> heap') pos pos'
  | None => heap
  end.

(** [heappop]: [None] stands for the [IndexError] of popping an empty list. *)
Definition heappop (heap : list A) : option (A * list A) :=
  match last heap with
  | None => None
  | Some lastelt =>
      let heap := removelast heap in
      match heap with
      | [] => Some (lastelt, [])
      | returnitem :: _ => Some (returnitem, _siftup (<[0 := lastelt]> heap) 0)
      end
  end.

(** *** The heap invariant *)

Definition heap_ordered (l : list A) : Prop :=
  ∀ i x y, 0 < i → l !! i = Some x → l !! parent_of i = Some y → lt x y = false.

(** Ordered everywhere but on the edge above [pos]; the children of [pos]
    are already above its parent. *)
Definition ordered_above (l : list A) (pos : nat) : Prop :=
  (∀ i x y, 0 < i → i ≠ pos →
      l !! i = Some x → l !! parent_of i = Some y → lt x y = false) ∧
  (∀ c x y, 0 < pos → 0 < c → parent_of c = pos →
      l !! c = Some x → l !! parent_of pos = Some y → lt x y = false).

(** Ordered everywhere but on the edges around the hole [pos]. *)
Definition ordered_around (l : list A) (pos : nat) : Prop :=
  (∀ i x y, 0 < i → i ≠ pos → parent_of i ≠ pos →
      l !! i = Some x → l !! parent_of i = Some y → lt x y = false) ∧
  (∀ c x y, 0 < pos → 0 < c → parent_of c = pos →
      l !! c = Some x → l !! parent_of pos = Some y → lt x y = false).

End Heap.
End heapq.

(** ** Python containers and numbers *)

Module Py.

(** An insertion-ordered [dict] with [str] keys: [d[k] = v] keeps the place
    of an existing key and appends a new one. *)
Definition dict (V : Type) : Type := list (string * V).

Fixpoint dict_get {V : Type} (d : dict V) (k : string) : option V :=
  match d with
  | [] => None
  | (k', v) :: d' => if decide (k' = k) then Some v else dict_get d' k
  end.

Fixpoint dict_set {V : Type} (d : dict V) (k : string) (v : V) : dict V :=
  match d with
  | [] => [(k, v)]
  | (k', v') :: d' =>
      if decide (k' = k) then (k, v) :: d' else (k', v') :: dict_set d' k v
  end.

Definition dict_values {V : Type} (d : dict V) : list V := d.*2.

(** [a < b] and [a == b] on floats *)
Definition ltb (a b : Q) : bool := negb (Qle_bool b a).
Definition eqb (a b : Q) : bool := Qeq_bool a b.

(** [max(a, b)] keeps [a] unless [b > a]; [min(a, b)] keeps [a] unless [b < a]. *)
Definition max (a b : Q) : Q := if ltb a b then b else a.
Definition min (a b : Q) : Q := if ltb b a then b else a.

End Py.

(** ** [random]: the module-level generator

    The generator is an oracle read at an advancing position.  [random()]
    reads [rand_float]; [_randbelow(n)] reads [rand_below] (reduced below [n]);
    [gammavariate] reads [rand_gamma] once, its rejection loop is not
    modelled.  [uniform], [randint], [choice] and [shuffle] are CPython's
    definitions on top of these. *)

Module random.

Record state : Type := mk_state {
  rand_float : nat → Q;
  rand_below : nat → nat → nat;
  rand_gamma : nat → Q;
  rand_pos : nat
}.

Definition advance (r : state) : state :=
  mk_state (rand_float r) (rand_below r) (rand_gamma r) (S (rand_pos r)).

Definition random (r : state) : Q * state :=
  (rand_float r (rand_pos r), advance r).

(** [a + (b - a) * self.random()] *)
Definition uniform (a b : Q) (r : state) : Q * state :=
  let '(u, r) := random r in ((a + (b - a) * u)%Q, r).

Definition randbelow (n : nat) (r : state) : nat * state :=
  (rand_below r (rand_pos r) n `mod` n, advance r).

(** [a + self._randbelow(b - a + 1)]; an empty range raises [ValueError]. *)
Definition randint (a b : Z) (r : state) : exc (Z * state) :=
  if (b <? a)%Z then Raise ValueError
  else let '(j, r) := randbelow (Z.to_nat (b - a + 1)) r in Ok ((a + Z.of_nat j)%Z, r).

Definition choice {A : Type} (seq : list A) (r : state) : exc (A * state) :=
  match seq with
  | [] => Raise IndexError
  | _ => let '(j, r) := randbelow (length seq) r in
         x ← of_option IndexError (seq !! j); Ok (x, r)
  end.

(** [for i in reversed(range(1, len(x))): j = randbelow(i + 1);
    x[i], x[j] = x[j], x[i]]; [i] runs from [n] down to 1. *)
Fixpoint shuffle_loop {A : Type} (n : nat) (x : list A) (r : state) : list A * state :=
  match n with
  | 0 => (x, r)
  | S n' =>
      let '(j, r) := randbelow (S n) r in
      let x :=
        match x !! n, x !! j with
        | Some xi, Some xj => <[j := xi]> (<[n := xj]> x)
        | _, _ => x
        end in
      shuffle_loop n' x r
  end.

Definition shuffle {A : Type} (x : list A) (r : state) : list A * state :=
  shuffle_loop (length x - 1) x r.

Definition gammavariate (alpha beta : Q) (r : state) : Q * state :=
  (rand_gamma r (rand_pos r), advance r).

End random.

(** ** [schema.py] *)

Inductive EventType : Type :=
  | ARRIVAL_NODE | START_SERVICE | END_SERVICE | DEPART_NODE | TRUCK_SPAWN
  | START_REST | END_REST | ORDER_CREATED | ORDER_ASSIGNED.

Inductive TruckStatus : Type :=
  | IDLE | EN_ROUTE_TO_PICKUP | EN_ROUTE_TO_DELIVERY | RESTING.

Inductive NodeType : Type :=
  | WAREHOUSE | HUB | INSPECTION | CUSTOMER | PORT.

Global Instance EventType_eq_dec : EqDecision EventType.
Proof. solve_decision. Defined.
Global Instance TruckStatus_eq_dec : EqDecision TruckStatus.
Proof. solve_decision. Defined.
Global Instance NodeType_eq_dec : EqDecision NodeType.
Proof. solve_decision. Defined.

Module Order.
Record t : Type := mk {
  id : string;
  origin_node_id : string;
  destination_node_id : string;
  creation_time : Q;
  status : string
}.
Definition set_status (s : string) (o : t) : t :=
  mk (id o) (origin_node_id o) (destination_node_id o) (creation_time o) s.
End Order.

Module Node.
Record t : Type := mk {
  id : string;
  type : NodeType;
  lat : Q;
  lon : Q;
  capacity : Z;
  is_inspection : bool;
  queue : list string;
  busy_count : Z
}.
Definition set_queue (q : list string) (n : t) : t :=
  mk (id n) (type n) (lat n) (lon n) (capacity n) (is_inspection n) q (busy_count n).
Definition set_busy_count (b : Z) (n : t) : t :=
  mk (id n) (type n) (lat n) (lon n) (capacity n) (is_inspection n) (queue n) b.
End Node.

Module Edge.
(** The dataclass fields in declaration order, which is also the order of
    the positional arguments of [Edge(...)]. *)
Record t : Type := mk {
  source : string;
  target : string;
  base_travel_time : Q;
  distance_km : Q;
  mode_allowed : string
}.
End Edge.

Module Truck.
Record t : Type := mk {
  id : string;
  current_node_id : string;
  route : list string;
  current_node_index : nat;
  cargo_type : string;
  driving_time_since_rest : Q;
  is_resting : bool;
  status : TruckStatus;
  previous_status : option TruckStatus;
  assigned_order_id : option string;
  current_leg_start_time : Q;
  current_leg_duration : Q
}.
Definition set_current_node_id (x : string) (k : t) : t :=
  mk (id k) x (route k) (current_node_index k) (cargo_type k)
     (driving_time_since_rest k) (is_resting k) (status k) (previous_status k)
     (assigned_order_id k) (current_leg_start_time k) (current_leg_duration k).
Definition set_route (x : list string) (k : t) : t :=
  mk (id k) (current_node_id k) x (current_node_index k) (cargo_type k)
     (driving_time_since_rest k) (is_resting k) (status k) (previous_status k)
     (assigned_order_id k) (current_leg_start_time k) (current_leg_duration k).
Definition set_current_node_index (x : nat) (k : t) : t :=
  mk (id k) (current_node_id k) (route k) x (cargo_type k)
     (driving_time_since_rest k) (is_resting k) (status k) (previous_status k)
     (assigned_order_id k) (current_leg_start_time k) (current_leg_duration k).
Definition set_driving_time_since_rest (x : Q) (k : t) : t :=
  mk (id k) (current_node_id k) (route k) (current_node_index k) (cargo_type k)
     x (is_resting k) (status k) (previous_status k)
     (assigned_order_id k) (current_leg_start_time k) (current_leg_duration k).
Definition set_is_resting (x : bool) (k : t) : t :=
  mk (id k) (current_node_id k) (route k) (current_node_index k) (cargo_type k)
     (driving_time_since_rest k) x (status k) (previous_status k)
     (assigned_order_id k) (current_leg_start_time k) (current_leg_duration k).
Definition set_status (x : TruckStatus) (k : t) : t :=
  mk (id k) (current_node_id k) (route k) (current_node_index k) (cargo_type k)
     (driving_time_since_rest k) (is_resting k) x (previous_status k)
     (assigned_order_id k) (current_leg_start_time k) (current_leg_duration k).
Definition set_previous_status (x : option TruckStatus) (k : t) : t :=
  mk (id k) (current_node_id k) (route k) (current_node_index k) (cargo_type k)
     (driving_time_since_rest k) (is_resting k) (status k) x
     (assigned_order_id k) (current_leg_start_time k) (current_leg_duration k).
Definition set_assigned_order_id (x : option string) (k : t) : t :=
  mk (id k) (current_node_id k) (route k) (current_node_index k) (cargo_type k)
     (driving_time_since_rest k) (is_resting k) (status k) (previous_status k)
     x (current_leg_start_time k) (current_leg_duration k).
Definition set_current_leg_start_time (x : Q) (k : t) : t :=
  mk (id k) (current_node_id k) (route k) (current_node_index k) (cargo_type k)
     (driving_time_since_rest k) (is_resting k) (status k) (previous_status k)
     (assigned_order_id k) x (current_leg_duration k).
Definition set_current_leg_duration (x : Q) (k : t) : t :=
  mk (id k) (current_node_id k) (route k) (current_node_index k) (cargo_type k)
     (driving_time_since_rest k) (is_resting k) (status k) (previous_status k)
     (assigned_order_id k) (current_leg_start_time k) x.
(** [Truck(id=..., current_node_id=..., status=...)] with the defaults *)
Definition new (id current_node_id : string) (status : TruckStatus) : t :=
  mk id current_node_id [] 0 "general" 0%Q false status None None 0%Q 0%Q.
End Truck.

(** A value of the free-form [details] map of an event. *)
Inductive detail : Type :=
  | DStr (s : string)
  | DFloat (q : Q).

Module Event.
Record t : Type := mk {
  time : Q;
  truck_id : string;
  node_id : string;
  event_type : EventType;
  event_id : Z;
  details : Py.dict detail
}.
(** [Event(time=..., truck_id=..., node_id=..., event_type=..., details=...)] *)
Definition new (time : Q) (truck_id node_id : string) (event_type : EventType)
    (details : Py.dict detail) : t :=
  mk time truck_id node_id event_type 0%Z details.
(** [@dataclass(order=True)] with [time] the only compared field *)
Definition eqb (a b : t) : bool := Py.eqb (time a) (time b).
Definition ltb (a b : t) : bool :=
  if negb (Py.eqb (time a) (time b)) then Py.ltb (time a) (time b) else false.
End Event.

(** ** Python [str] methods and numeric literals

    A [str] is a [string] of code points below 256. *)

Module str.

Definition chars (s : string) : list ascii := list_ascii_of_string s.
Definition of_chars (l : list ascii) : string := string_of_list_ascii l.

(** [c.isspace()] *)
Definition isspace (c : ascii) : bool :=
  let n := nat_of_ascii c in
  ((9 <=? n) && (n <=? 13)) || ((28 <=? n) && (n <=? 32))
  || (n =? 133) || (n =? 160).

Fixpoint lstrip_chars (l : list ascii) : list ascii :=
  match l with
  | c :: l' => if isspace c then lstrip_chars l' else l
  | [] => []
  end.

(** [s.strip()] *)
Definition strip (s : string) : string :=
  of_chars (reverse (lstrip_chars (reverse (lstrip_chars (chars s))))).

(** [s.startswith(p)] *)
Definition startswith (p s : string) : bool := String.prefix p s.

(** Splitting at every character for which [sep] holds, empty pieces
    included: the pieces of [s.split(c)] for a one-character separator. *)
Fixpoint split_go (sep : ascii → bool) (cur : list ascii) (l : list ascii)
    : list (list ascii) :=
  match l with
  | [] => [reverse cur]
  | c :: l' =>
      if sep c then reverse cur :: split_go sep [] l'
      else split_go sep (c :: cur) l'
  end.

(** [s.split(c)] *)
Definition split_on (c : ascii) (s : string) : list string :=
  of_chars <$> split_go (λ c', bool_decide (c' = c)) [] (chars s).

(** [s.split()]: pieces between runs of whitespace, none empty *)
Definition split (s : string) : list string :=
  of_chars <$> filter (λ p, p ≠ []) (split_go isspace [] (chars s)).

(** The lines a text-mode file yields: the content cut after each line
    break (LF, CR or CRLF under universal newlines).  The terminators are
    dropped here; every reader below strips the line first. *)
Definition splitlines (s : string) : list string :=
  of_chars <$> split_go (λ c, bool_decide (c = "010"%char) || bool_decide (c = "013"%char))
                 [] (chars s).

Definition digit (c : ascii) : option Z :=
  let n := nat_of_ascii c in
  if (48 <=? n) && (n <=? 57) then Some (Z.of_nat n - 48)%Z else None.

(** [digit (["_"] digit)*]: the digits of a literal, single underscores
    allowed between them. [after_digit] tells whether a digit precedes. *)
Fixpoint digitpart (l : list ascii) (after_digit : bool) : option (list Z) :=
  match l with
  | [] => if after_digit then Some [] else None
  | c :: l' =>
      if bool_decide (c = "_"%char) then
        if after_digit then
          match l' with
          | [] => None
          | _ => digitpart l' false
          end
        else None
      else
        match digit c with
        | Some d => cons d <$> digitpart l' true
        | None => None
        end
  end.

Definition digits_value (ds : list Z) : Z :=
  fold_left (λ acc d, (acc * 10 + d)%Z) ds 0%Z.

(** An optional sign in front of [l] *)
Definition sign (l : list ascii) : Z * list ascii :=
  match l with
  | c :: l' =>
      if bool_decide (c = "-"%char) then ((-1)%Z, l')
      else if bool_decide (c = "+"%char) then (1%Z, l')
      else (1%Z, l)
  | [] => (1%Z, [])
  end.

(** [int(s)] in base 10; [None] is [ValueError]. *)
Definition int (s : string) : option Z :=
  let '(sg, l) := sign (chars (strip s)) in
  ds ← digitpart l false; Some (sg * digits_value ds)%Z.

(** Digits that may be absent *)
Definition digitpart_opt (l : list ascii) : option (list Z) :=
  match l with
  | [] => Some []
  | _ => digitpart l false
  end.

Definition pow10 (e : Z) : Q :=
  match e with
  | Z0 => 1%Q
  | Zpos p => inject_Z (10 ^ Zpos p)
  | Zneg p => (1 # Pos.pow 10 p)%Q
  end.

Definition is_e (c : ascii) : bool :=
  bool_decide (c = "e"%char) || bool_decide (c = "E"%char).

(** [float(s)] for decimal literals ([[sign] digits [. digits] [e [sign]
    digits]]); [None] is [ValueError].  The literals [inf] and [nan], which
    [Q] cannot hold, are not accepted here. *)
Definition float (s : string) : option Q :=
  let '(sg, l) := sign (chars (strip s)) in
  let '(mant, expo) :=
    match split_go is_e [] l with
    | [m] => (m, Some 0%Z)
    | [m; e] =>
        let '(esg, el) := sign e in
        (m, (λ ds, (esg * digits_value ds)%Z) <$> digitpart el false)
    | _ => (l, None)
    end in
  e ← expo;
  '(ip, fp) ←
    match split_go (λ c, bool_decide (c = "."%char)) [] mant with
    | [i] => (λ ds, (ds, [])) <$> digitpart i false
    | [i; f] =>
        match i, f with
        | [], [] => None
        | _, _ => i' ← digitpart_opt i; f' ← digitpart_opt f; Some (i', f')
        end
    | _ => None
    end;
  Some (inject_Z (sg * digits_value (ip ++ fp)) * pow10 (e - Z.of_nat (length fp)))%Q.

End str.

(** ** [tsplib_parser.py] *)

Module TSPNode.
Record t : Type := mk { id : Z; x : Q; y : Q }.
End TSPNode.

(** The state of the reading loop of [parse_tsplib] *)
Record parse_state : Type := mk_parse_state {
  ps_nodes : list TSPNode.t;
  ps_name : string;
  ps_in_coord_section : bool
}.

(** One turn of [for line in f] *)
Definition parse_line (st : parse_state) (raw : string) : parse_state :=
  let line := str.strip raw in
  if bool_decide (line = "") || bool_decide (line = "EOF") then st
  else if str.startswith "NAME" line then
    mk_parse_state (ps_nodes st)
      (str.strip (default "" (last (str.split_on ":" line))))
      (ps_in_coord_section st)
  else if bool_decide (line = "NODE_COORD_SECTION") then
    mk_parse_state (ps_nodes st) (ps_name st) true
  else if ps_in_coord_section st then
    let parts := str.split line in
    if 3 <=? length parts then
      match parts !! 0 ≫= str.int, parts !! 1 ≫= str.float, parts !! 2 ≫= str.float with
      | Some node_id, Some x, Some y =>
          mk_parse_state (ps_nodes st ++ [TSPNode.mk node_id x y])
            (ps_name st) (ps_in_coord_section st)
      | _, _, _ => st
      end
    else st
  else st.

(** [parse_tsplib]: the argument is the text of the file. *)
Definition parse_tsplib (content : string) : string * list TSPNode.t :=
  let st := fold_left parse_line (str.splitlines content)
              (mk_parse_state [] "unknown" false) in
  (ps_name st, ps_nodes st).

(** [euclidean_distance] and [normalize_coordinates] follow after [math]. *)

(** ** [math]

    The transcendental functions of the [math] module are parameters of the
    development; [radians] is [x * (pi / 180)]. *)

Module math.
Record functions : Type := mk {
  sin : Q → Q;
  cos : Q → Q;
  sqrt : Q → Q;
  atan2 : Q → Q → Q;
  pi : Q
}.
Definition radians (m : functions) (x : Q) : Q := (x * (pi m / 180))%Q.
End math.

(** ** [networkx]

    A [DiGraph] keeps its nodes in insertion order and a weight per directed
    edge; the node and edge [data] attributes, which nothing reads, are left
    out.  The two algorithms the sources call are parameters:
    [shortest_path g s t] stands for [nx.shortest_path(g, s, t,
    weight="weight")], and [connected_components g] for
    [list(nx.connected_components(g.to_undirected()))] with each component
    listed in the order [list(component)] yields. *)

Module nx.

Record DiGraph : Type := mk {
  nodes : list string;
  adj : gmap (string * string) Q
}.

Definition empty : DiGraph := mk [] ∅.

Definition add_node (g : DiGraph) (n : string) : DiGraph :=
  if bool_decide (n ∈ nodes g) then g else mk (nodes g ++ [n]) (adj g).

Definition add_edge (g : DiGraph) (u v : string) (weight : Q) : DiGraph :=
  let g := add_node (add_node g u) v in
  mk (nodes g) (<[(u, v) := weight]> (adj g)).

Inductive path_result : Type :=
  | Path (p : list string)
  | NoPath
  | NoNode.

Record algorithms : Type := mk_algorithms {
  shortest_path : DiGraph → string → string → path_result;
  connected_components : DiGraph → list (list string)
}.

(** [nx.is_connected(g.to_undirected())] *)
Definition is_connected (alg : algorithms) (g : DiGraph) : exc bool :=
  match nodes g with
  | [] => Raise NetworkXPointlessConcept
  | _ => Ok (bool_decide (length (connected_components alg g) = 1))
  end.

End nx.

(** ** [graph.py] *)

(** [list.sort(key=...)]: a stable sort on a float key *)
Fixpoint insert_by_key {A : Type} (key : A → Q) (x : A) (l : list A) : list A :=
  match l with
  | [] => [x]
  | y :: l' => if Py.ltb (key x) (key y) then x :: l else y :: insert_by_key key x l'
  end.

Definition sort_by_key {A : Type} (key : A → Q) (l : list A) : list A :=
  foldr (insert_by_key key) [] l.

(** The items of [l] other than the one at index [i], with their indices *)
Definition others {A : Type} (i : nat) (l : list A) : list (nat * A) :=
  filter (λ jv, jv.1 ≠ i) (imap pair l).

Record GraphBuilder : Type := mk_GraphBuilder {
  nodes : gmap string Node.t;
  edges : gmap (string * string) Edge.t;
  graph : nx.DiGraph
}.

(** [GraphBuilder()] *)
Definition GraphBuilder_init : GraphBuilder := mk_GraphBuilder ∅ ∅ nx.empty.

Definition add_node (gb : GraphBuilder) (node : Node.t) : GraphBuilder :=
  mk_GraphBuilder (<[Node.id node := node]> (nodes gb)) (edges gb)
    (nx.add_node (graph gb) (Node.id node)).

Definition add_edge (gb : GraphBuilder) (edge : Edge.t) : GraphBuilder :=
  mk_GraphBuilder (nodes gb)
    (<[(Edge.source edge, Edge.target edge) := edge]> (edges gb))
    (nx.add_edge (graph gb) (Edge.source edge) (Edge.target edge)
       (Edge.base_travel_time edge)).

Definition get_node (gb : GraphBuilder) (node_id : string) : exc Node.t :=
  of_option KeyError (nodes gb !! node_id).

Definition get_edge (gb : GraphBuilder) (source target : string) : option Edge.t :=
  edges gb !! (source, target).

(** [(source, target) in self.edges] *)
Definition has_edge (gb : GraphBuilder) (source target : string) : bool :=
  bool_decide (is_Some (edges gb !! (source, target))).

Section Graph.
Context (m : math.functions) (alg : nx.algorithms).

Definition haversine_distance (lat1 lon1 lat2 lon2 : Q) : Q :=
  let R := 6371%Q in
  let phi1 := math.radians m lat1 in
  let phi2 := math.radians m lat2 in
  let dphi := math.radians m (lat2 - lat1) in
  let dlambda := math.radians m (lon2 - lon1) in
  let a := (math.sin m (dphi / 2) ^ 2
            + math.cos m phi1 * math.cos m phi2 * math.sin m (dlambda / 2) ^ 2)%Q in
  let c := (2 * math.atan2 m (math.sqrt m a) (math.sqrt m (1 - a)))%Q in
  (R * c)%Q.

Definition node_distance (u v : Node.t) : Q :=
  haversine_distance (Node.lat u) (Node.lon u) (Node.lat v) (Node.lon v).

Definition euclidean_distance (n1 n2 : TSPNode.t) : Q :=
  math.sqrt m ((TSPNode.x n1 - TSPNode.x n2) ^ 2 + (TSPNode.y n1 - TSPNode.y n2) ^ 2)%Q.

(** [min(vals)] and [max(vals)] of a non-empty list *)
Definition list_min (d : Q) (l : list Q) : Q :=
  match l with
  | [] => d
  | x :: l' => fold_left (λ acc y, if Py.ltb y acc then y else acc) l' x
  end.
Definition list_max (d : Q) (l : list Q) : Q :=
  match l with
  | [] => d
  | x :: l' => fold_left (λ acc y, if Py.ltb acc y then y else acc) l' x
  end.

Definition normalize_coordinates (nodes : list TSPNode.t)
    (lat_range lon_range : Q * Q) : exc (list (Q * Q)) :=
  match nodes with
  | [] => Ok []
  | _ =>
    let x_vals := TSPNode.x <$> nodes in
    let y_vals := TSPNode.y <$> nodes in
    let x_min := list_min 0 x_vals in
    let x_max := list_max 0 x_vals in
    let y_min := list_min 0 y_vals in
    let y_max := list_max 0 y_vals in
    let x_span := if negb (Py.eqb x_max x_min) then (x_max - x_min)%Q else 1%Q in
    let y_span := if negb (Py.eqb y_max y_min) then (y_max - y_min)%Q else 1%Q in
    let '(lat_min, lat_max) := lat_range in
    let '(lon_min, lon_max) := lon_range in
    let lat_span_target := (lat_max - lat_min)%Q in
    let lon_span_target := (lon_max - lon_min)%Q in
    let avg_lat_rad := math.radians m ((lat_min + lat_max) / 2) in
    let lon_correction := math.cos m avg_lat_rad in
    let target_height := lat_span_target in
    let target_width := (lon_span_target * lon_correction)%Q in
    let scale_y := (target_height / y_span)%Q in
    let scale_x := (target_width / x_span)%Q in
    let scale := Py.min scale_x scale_y in
    if Py.eqb lon_correction 0 then Raise ZeroDivisionError
    else
      let lat_center := ((lat_min + lat_max) / 2)%Q in
      let lon_center := ((lon_min + lon_max) / 2)%Q in
      Ok ((λ node,
            let rel_x := (TSPNode.x node - (x_min + x_max) / 2)%Q in
            let rel_y := (TSPNode.y node - (y_min + y_max) / 2)%Q in
            let scaled_y := (rel_y * scale)%Q in
            let scaled_x := (rel_x * scale)%Q in
            let d_lat := scaled_y in
            let d_lon := (scaled_x / lon_correction)%Q in
            ((lat_center + d_lat)%Q, (lon_center + d_lon)%Q)) <$> nodes)
  end.

(** *** Node creation of [create_random_graph] *)

Definition node_types : list NodeType := [WAREHOUSE; HUB; INSPECTION; CUSTOMER; PORT].

(** One turn of [for i in range(num_nodes)] *)
Definition random_node (i : nat) (r : random.state) : exc (Node.t * random.state) :=
  let node_id := "N" +:+ pretty (i + 1) in
  '(node_type, r) ← random.choice node_types r;
  let '(d, r) := random.uniform (-5) 5 r in
  let lat := (50 + d)%Q in
  let '(d, r) := random.uniform (-10) 10 r in
  let lon := (19 + d)%Q in
  '(capacity, r) ← random.randint 1 3 r;
  let '(u, r) := random.random r in
  let is_inspection := Py.ltb u (3 # 10) in
  Ok (Node.mk node_id node_type lat lon capacity is_inspection [] 0%Z, r).

Definition random_nodes_step (st : GraphBuilder * list Node.t * random.state) (i : nat)
    : exc (GraphBuilder * list Node.t * random.state) :=
  let '(gb, nodes_list, r) := st in
  '(node, r) ← random_node i r;
  Ok (add_node gb node, nodes_list ++ [node], r).

(** *** The k-nearest-neighbour edges of [create_random_graph] *)

Definition random_knn_edge (node_u : Node.t) (gb : GraphBuilder)
    (dv : Q * Node.t) : GraphBuilder :=
  let '(dist, node_v) := dv in
  let base_time := (dist / 60 * 60)%Q in
  let edge_uv := Edge.mk (Node.id node_u) (Node.id node_v) base_time dist "truck" in
  let gb := add_edge gb edge_uv in
  if negb (has_edge gb (Node.id node_v) (Node.id node_u)) then
    add_edge gb (Edge.mk (Node.id node_v) (Node.id node_u) base_time dist "truck")
  else gb.

Definition random_knn_node (nodes_list : list Node.t) (k_neighbors : nat)
    (gb : GraphBuilder) (iu : nat * Node.t) : GraphBuilder :=
  let '(i, node_u) := iu in
  let distances := (λ jv : nat * Node.t, (node_distance node_u jv.2, jv.2))
                     <$> others i nodes_list in
  let distances := sort_by_key fst distances in
  let nearest := take k_neighbors distances in
  fold_left (random_knn_edge node_u) nearest gb.

(** *** Connectivity repair *)

(** The two nested loops looking for the closest pair; [None] is the
    initial [min_dist = inf], [best_pair = None]. *)
Definition closest_inner (gb : GraphBuilder) (u : Node.t)
    (best : option (Q * (Node.t * Node.t))) (v_id : string)
    : exc (option (Q * (Node.t * Node.t))) :=
  v ← get_node gb v_id;
  let dist := node_distance u v in
  match best with
  | Some (min_dist, _) =>
      if Py.ltb dist min_dist then Ok (Some (dist, (u, v))) else Ok best
  | None => Ok (Some (dist, (u, v)))
  end.

Definition closest_outer (gb : GraphBuilder) (comp_b : list string)
    (best : option (Q * (Node.t * Node.t))) (u_id : string)
    : exc (option (Q * (Node.t * Node.t))) :=
  u ← get_node gb u_id;
  fold_exc (closest_inner gb u) comp_b best.

(** One turn of [for i in range(len(components) - 1)]; [speed] is the 60.0
    of [create_random_graph] and the 50.0 of [_ensure_connectivity].  The
    two [Edge(u.id, v.id, min_dist, base_time)] calls pass their arguments
    by position. *)
Definition connect_components (speed : Q) (gb : GraphBuilder)
    (ab : list string * list string) : exc GraphBuilder :=
  let '(comp_a, comp_b) := ab in
  best ← fold_exc (closest_outer gb comp_b) comp_a None;
  match best with
  | Some (min_dist, (u, v)) =>
      let base_time := (min_dist / speed * 60)%Q in
      let gb := add_edge gb (Edge.mk (Node.id u) (Node.id v) min_dist base_time "truck") in
      Ok (add_edge gb (Edge.mk (Node.id v) (Node.id u) min_dist base_time "truck"))
  | None => Ok gb
  end.

(** Consecutive components: [(components[i], components[i + 1])] *)
Definition consecutive {A : Type} (l : list A) : list (A * A) := zip l (tail l).

Definition repair (speed : Q) (gb : GraphBuilder) : exc GraphBuilder :=
  connected ← nx.is_connected alg (graph gb);
  if (connected : bool) then Ok gb
  else fold_exc (connect_components speed)
         (consecutive (nx.connected_components alg (graph gb))) gb.

Definition _ensure_connectivity (gb : GraphBuilder) : exc GraphBuilder :=
  repair 50 gb.

Definition create_random_graph (num_nodes k_neighbors : nat)
    (gb : GraphBuilder) (r : random.state) : exc (GraphBuilder * random.state) :=
  '(gb, nodes_list, r) ← fold_exc random_nodes_step (seq 0 num_nodes) (gb, [], r);
  let gb := fold_left (random_knn_node nodes_list k_neighbors) (imap pair nodes_list) gb in
  gb ← repair 60 gb;
  Ok (gb, r).

Definition get_shortest_path (gb : GraphBuilder) (start_node end_node : string)
    : exc (list string) :=
  match nx.shortest_path alg (graph gb) start_node end_node with
  | nx.Path p => Ok p
  | nx.NoPath => Ok []
  | nx.NoNode => Raise NodeNotFound
  end.

(** *** [create_from_tsplib] *)

Definition type_assignment (n i : nat) : NodeType :=
  let ratio := (inject_Z (Z.of_nat i) / inject_Z (Z.of_nat n))%Q in
  if Py.ltb ratio (10 # 100) then WAREHOUSE
  else if Py.ltb ratio (20 # 100) then HUB
  else if Py.ltb ratio (25 # 100) then PORT
  else if Py.ltb ratio (30 # 100) then INSPECTION
  else CUSTOMER.

Definition tsplib_node (tsp_node : TSPNode.t) (latlon : Q * Q) (node_type : NodeType)
    (r : random.state) : exc (Node.t * random.state) :=
  let node_id := "N" +:+ pretty (TSPNode.id tsp_node) in
  '(capacity, r) ←
    match node_type with
    | WAREHOUSE => random.randint 3 5 r
    | HUB => random.randint 2 4 r
    | PORT => random.randint 2 3 r
    | _ => random.randint 1 2 r
    end;
  let is_inspection := bool_decide (node_type = INSPECTION) in
  Ok (Node.mk node_id node_type latlon.1 latlon.2 capacity is_inspection [] 0%Z, r).

Definition tsplib_nodes_step (st : GraphBuilder * list Node.t * random.state)
    (item : TSPNode.t * (Q * Q) * NodeType)
    : exc (GraphBuilder * list Node.t * random.state) :=
  let '(gb, nodes_list, r) := st in
  let '(tsp_node, latlon, node_type) := item in
  '(node, r) ← tsplib_node tsp_node latlon node_type r;
  Ok (add_node gb node, nodes_list ++ [node], r).

Definition tsplib_knn_edge (node_u : Node.t) (gb : GraphBuilder)
    (item : Q * nat * Node.t) : GraphBuilder :=
  let '(dist_tsp, j, node_v) := item in
  let dist_km := node_distance node_u node_v in
  let base_time := (dist_km / 50 * 60)%Q in
  let gb :=
    if negb (has_edge gb (Node.id node_u) (Node.id node_v)) then
      add_edge gb (Edge.mk (Node.id node_u) (Node.id node_v) base_time dist_km "truck")
    else gb in
  if negb (has_edge gb (Node.id node_v) (Node.id node_u)) then
    add_edge gb (Edge.mk (Node.id node_v) (Node.id node_u) base_time dist_km "truck")
  else gb.

Definition tsplib_knn_node (tsp_nodes : list TSPNode.t) (nodes_list : list Node.t)
    (k_neighbors : nat) (gb : GraphBuilder) (iu : nat * Node.t) : GraphBuilder :=
  let '(i, node_u) := iu in
  match tsp_nodes !! i with
  | Some tsp_u =>
      let distances :=
        omap (λ jv : nat * Node.t,
                tsp_v ← tsp_nodes !! jv.1;
                Some (euclidean_distance tsp_u tsp_v, jv.1, jv.2))
             (others i nodes_list) in
      let distances := sort_by_key (λ x, x.1.1) distances in
      let nearest := take k_neighbors distances in
      fold_left (tsplib_knn_edge node_u) nearest gb
  | None => gb
  end.

(** [create_from_tsplib]; [content] is the text of the file at [file_path]. *)
Definition create_from_tsplib (content : string) (k_neighbors : nat)
    (gb : GraphBuilder) (r : random.state) : exc (GraphBuilder * random.state) :=
  let '(problem_name, tsp_nodes) := parse_tsplib content in
  match tsp_nodes with
  | [] => Raise ValueError
  | _ =>
    coords ← normalize_coordinates tsp_nodes (45, 55)%Q (14, 24)%Q;
    let n := length tsp_nodes in
    let type_assignments := type_assignment n <$> seq 0 n in
    let '(type_assignments, r) := random.shuffle type_assignments r in
    '(gb, nodes_list, r) ←
      fold_exc tsplib_nodes_step (zip (zip tsp_nodes coords) type_assignments) (gb, [], r);
    let gb := fold_left (tsplib_knn_node tsp_nodes nodes_list k_neighbors)
                (imap pair nodes_list) gb in
    gb ← _ensure_connectivity gb;
    Ok (gb, r)
  end.

End Graph.

(** ** [delays.py] *)

Module DelayModel.

Definition get_travel_time (edge : Edge.t) (r : random.state) : Q * random.state :=
  let base := Edge.base_travel_time edge in
  let '(noise, r) := random.uniform 0 1 r in
  let '(u, r) := random.random r in
  let '(noise, r) :=
    if Py.ltb u (5 # 100) then
      let '(extra, r) := random.uniform (1 # 2) 2 r in ((noise + extra)%Q, r)
    else (noise, r) in
  (Py.max 1 (base * (1 + noise)), r).

(** The [base] computed from the node type is never used. *)
Definition get_service_time (node : Node.t) (r : random.state) : Q * random.state :=
  let '(actual, r) := random.gammavariate 4 35 r in
  (Py.max 60 (Py.min actual 300), r).

End DelayModel.

(** ** [engine.py] *)

(** An item of the event queue: [(event.time, self.event_counter, event)] *)
Definition entry : Type := Q * nat * Event.t.

(** [<] on these tuples: the first component that differs decides. *)
Definition entry_lt (a b : entry) : bool :=
  let '(t1, c1, e1) := a in
  let '(t2, c2, e2) := b in
  if negb (Py.eqb t1 t2) then Py.ltb t1 t2
  else if negb (c1 =? c2) then c1 <? c2
  else if negb (Event.eqb e1 e2) then Event.ltb e1 e2
  else false.

Record SimulationEngine : Type := mk_engine {
  graph_builder : GraphBuilder;
  event_queue : list entry;
  current_time : Q;
  event_counter : nat;
  processed_events : list Event.t;
  trucks : Py.dict Truck.t;
  orders : gmap string Order.t;
  pending_orders : list string;
  rng : random.state
}.

(** [SimulationEngine(graph_builder)]; [r] is the state of the global generator. *)
Definition SimulationEngine_init (gb : GraphBuilder) (r : random.state) : SimulationEngine :=
  mk_engine gb [] 0%Q 0 [] [] ∅ [] r.

Definition set_graph_builder (x : GraphBuilder) (e : SimulationEngine) : SimulationEngine :=
  mk_engine x (event_queue e) (current_time e) (event_counter e) (processed_events e)
    (trucks e) (orders e) (pending_orders e) (rng e).
Definition set_trucks (x : Py.dict Truck.t) (e : SimulationEngine) : SimulationEngine :=
  mk_engine (graph_builder e) (event_queue e) (current_time e) (event_counter e)
    (processed_events e) x (orders e) (pending_orders e) (rng e).
Definition set_orders (x : gmap string Order.t) (e : SimulationEngine) : SimulationEngine :=
  mk_engine (graph_builder e) (event_queue e) (current_time e) (event_counter e)
    (processed_events e) (trucks e) x (pending_orders e) (rng e).
Definition set_pending_orders (x : list string) (e : SimulationEngine) : SimulationEngine :=
  mk_engine (graph_builder e) (event_queue e) (current_time e) (event_counter e)
    (processed_events e) (trucks e) (orders e) x (rng e).
Definition set_rng (x : random.state) (e : SimulationEngine) : SimulationEngine :=
  mk_engine (graph_builder e) (event_queue e) (current_time e) (event_counter e)
    (processed_events e) (trucks e) (orders e) (pending_orders e) x.

(** Writing a mutated object back under the key it was fetched with *)
Definition set_node (node_id : string) (node : Node.t) (e : SimulationEngine)
    : SimulationEngine :=
  let gb := graph_builder e in
  set_graph_builder (mk_GraphBuilder (<[node_id := node]> (nodes gb)) (edges gb) (graph gb)) e.
Definition set_truck (truck_id : string) (truck : Truck.t) (e : SimulationEngine)
    : SimulationEngine :=
  set_trucks (Py.dict_set (trucks e) truck_id truck) e.
Definition set_order (order_id : string) (order : Order.t) (e : SimulationEngine)
    : SimulationEngine :=
  set_orders (<[order_id := order]> (orders e)) e.

Definition schedule_event (event : Event.t) (e : SimulationEngine) : SimulationEngine :=
  mk_engine (graph_builder e)
    (heapq.heappush entry_lt (event_queue e) (Event.time event, event_counter e, event))
    (current_time e) (S (event_counter e)) (processed_events e)
    (trucks e) (orders e) (pending_orders e) (rng e).

(** The value of [truck.assigned_order_id] when it is truthy: neither [None]
    nor the empty string. *)
Definition truthy_id (o : option string) : option string :=
  match o with
  | Some s => if bool_decide (s = "") then None else Some s
  | None => None
  end.

(** [event.details[k]] for an entry annotated [str] *)
Definition details_str (event : Event.t) (k : string) : exc string :=
  d ← of_option KeyError (Py.dict_get (Event.details event) k);
  match d with
  | DStr s => Ok s
  | DFloat _ => Raise TypeError
  end.

(** The [# Combine routes] block of [assign_order_to_truck]: the value of
    [full_route] after it. *)
Definition combine_routes (path_to_pickup path_to_delivery : list string) : list string :=
  match path_to_pickup with
  | [] => path_to_delivery
  | _ =>
      match path_to_delivery with
      | [] => path_to_pickup
      | first :: rest =>
          if bool_decide (last path_to_pickup = Some first)
          then path_to_pickup ++ rest
          else path_to_pickup ++ path_to_delivery
      end
  end.

(** The state of [step] once the popped [event] has set the clock and joined
    the log; [queue] is what [heappop] left. *)
Definition advance_to (time : Q) (event : Event.t) (queue : list entry)
    (e : SimulationEngine) : SimulationEngine :=
  mk_engine (graph_builder e) queue time (event_counter e)
    (processed_events e ++ [event])
    (trucks e) (orders e) (pending_orders e) (rng e).

Section Engine.
Context (alg : nx.algorithms).

(** [order] and [truck] are the objects stored under [order_key] and
    [truck_key]; their mutations are written back there. *)
Definition assign_order_to_truck (order_key : string) (order : Order.t)
    (truck_key : string) (truck : Truck.t) (e : SimulationEngine)
    : exc SimulationEngine :=
  path_to_pickup ←
    (if bool_decide (Truck.current_node_id truck ≠ Order.origin_node_id order) then
       _ ← get_shortest_path alg (graph_builder e)
              (Truck.current_node_id truck) (Order.origin_node_id order);
       get_shortest_path alg (graph_builder e)
         (Truck.current_node_id truck) (Order.origin_node_id order)
     else Ok []);
  path_to_delivery ←
    get_shortest_path alg (graph_builder e)
      (Order.origin_node_id order) (Order.destination_node_id order);
  let full_route := combine_routes path_to_pickup path_to_delivery in
  if length full_route <? 2 then
    Ok (set_order order_key (Order.set_status "CANCELLED" order) e)
  else
    let truck := Truck.set_status EN_ROUTE_TO_PICKUP truck in
    let truck := Truck.set_assigned_order_id (Some (Order.id order)) truck in
    let order := Order.set_status "ASSIGNED" order in
    let e := set_order order_key order (set_truck truck_key truck e) in
    let e := schedule_event
      (Event.new (current_time e) (Truck.id truck) (Truck.current_node_id truck)
         ORDER_ASSIGNED
         [("order_id", DStr (Order.id order));
          ("origin", DStr (Order.origin_node_id order));
          ("destination", DStr (Order.destination_node_id order));
          ("reason", DStr "Nearest Idle Truck")]) e in
    let truck := Truck.set_current_node_index 0 (Truck.set_route full_route truck) in
    let e := set_truck truck_key truck e in
    if 1 <? length (Truck.route truck) then
      Ok (schedule_event
            (Event.new (current_time e) (Truck.id truck) (Truck.current_node_id truck)
               DEPART_NODE []) e)
    else Ok e.

Definition dispatcher_logic (e : SimulationEngine) : exc SimulationEngine :=
  match pending_orders e with
  | [] => Ok e
  | order_id :: _ =>
      let idle_trucks :=
        filter (λ kt : string * Truck.t, Truck.status kt.2 = IDLE) (trucks e) in
      match idle_trucks with
      | [] => Ok e
      | (truck_key, best_truck) :: _ =>
          order ← of_option KeyError (orders e !! order_id);
          e ← assign_order_to_truck order_id order truck_key best_truck e;
          Ok (set_pending_orders (tail (pending_orders e)) e)
      end
  end.

Definition handle_truck_spawn (event : Event.t) (e : SimulationEngine)
    : exc SimulationEngine :=
  let truck_id := Event.truck_id event in
  let start_node_id := Event.node_id event in
  let truck := Truck.new truck_id start_node_id IDLE in
  dispatcher_logic (set_truck truck_id truck e).

Definition handle_order_created (event : Event.t) (e : SimulationEngine)
    : exc SimulationEngine :=
  order_id ← details_str event "order_id";
  origin ← details_str event "origin";
  destination ← details_str event "destination";
  let order := Order.mk order_id origin destination (current_time e) "PENDING" in
  let e := set_order order_id order e in
  let e := set_pending_orders (pending_orders e ++ [order_id]) e in
  dispatcher_logic e.

Definition handle_arrival (event : Event.t) (e : SimulationEngine)
    : exc SimulationEngine :=
  node ← get_node (graph_builder e) (Event.node_id event);
  let truck_id := Event.truck_id event in
  truck ← of_option KeyError (Py.dict_get (trucks e) truck_id);
  let truck := Truck.set_current_node_id (Node.id node) truck in
  let truck := Truck.set_current_leg_duration 0 truck in
  let truck := Truck.set_current_leg_start_time 0 truck in
  let e := set_truck truck_id truck e in
  _ ← match truthy_id (Truck.assigned_order_id truck) with
      | Some oid => _ ← of_option KeyError (orders e !! oid); Ok ()
      | None => Ok ()
      end;
  if (Node.busy_count node <? Node.capacity node)%Z then
    Ok (schedule_event
          (Event.new (current_time e) truck_id (Node.id node) START_SERVICE []) e)
  else
    Ok (set_node (Event.node_id event)
          (Node.set_queue (Node.queue node ++ [truck_id]) node) e).

Definition handle_start_service (event : Event.t) (e : SimulationEngine)
    : exc SimulationEngine :=
  node ← get_node (graph_builder e) (Event.node_id event);
  let node := Node.set_busy_count (Node.busy_count node + 1)%Z node in
  let e := set_node (Event.node_id event) node e in
  let '(service_time, r) := DelayModel.get_service_time node (rng e) in
  let e := set_rng r e in
  Ok (schedule_event
        (Event.new (current_time e + service_time)%Q (Event.truck_id event)
           (Node.id node) END_SERVICE [("service_duration", DFloat service_time)]) e).

(** [if node.queue: next_truck_id = node.queue.pop(0); schedule START_SERVICE] *)
Definition promote_queued (node_key : string) (node : Node.t) (e : SimulationEngine)
    : SimulationEngine :=
  match Node.queue node with
  | [] => e
  | next_truck_id :: rest =>
      let e := set_node node_key (Node.set_queue rest node) e in
      schedule_event
        (Event.new (current_time e) next_truck_id (Node.id node) START_SERVICE []) e
  end.

(** [continue] is the part of the handler after the order bookkeeping; the
    delivery branch returns before it. *)
Definition handle_end_service (event : Event.t) (e : SimulationEngine)
    : exc SimulationEngine :=
  node ← get_node (graph_builder e) (Event.node_id event);
  let node := Node.set_busy_count (Node.busy_count node - 1)%Z node in
  let e := set_node (Event.node_id event) node e in
  truck ← of_option KeyError (Py.dict_get (trucks e) (Event.truck_id event));
  let continue (truck : Truck.t) (e : SimulationEngine) : exc SimulationEngine :=
    let e :=
      if bool_decide (Truck.route truck ≠ [])
         && (S (Truck.current_node_index truck) <? length (Truck.route truck))
      then schedule_event
             (Event.new (current_time e) (Event.truck_id event) (Node.id node)
                DEPART_NODE []) e
      else e in
    Ok (promote_queued (Event.node_id event) node e) in
  match truthy_id (Truck.assigned_order_id truck) with
  | Some oid =>
      order ← of_option KeyError (orders e !! oid);
      if bool_decide (Truck.status truck = EN_ROUTE_TO_PICKUP)
         && bool_decide (Node.id node = Order.origin_node_id order) then
        let truck := Truck.set_status EN_ROUTE_TO_DELIVERY truck in
        continue truck (set_truck (Event.truck_id event) truck e)
      else if bool_decide (Truck.status truck = EN_ROUTE_TO_DELIVERY)
         && bool_decide (Node.id node = Order.destination_node_id order) then
        let truck := Truck.set_status IDLE truck in
        let truck := Truck.set_assigned_order_id None truck in
        let order := Order.set_status "COMPLETED" order in
        let truck := Truck.set_route [] truck in
        let e := set_order oid order (set_truck (Event.truck_id event) truck e) in
        Ok (promote_queued (Event.node_id event) node e)
      else continue truck e
  | None => continue truck e
  end.

Definition handle_depart (event : Event.t) (e : SimulationEngine)
    : exc SimulationEngine :=
  truck ← of_option KeyError (Py.dict_get (trucks e) (Event.truck_id event));
  let current_node_id := Event.node_id event in
  match Truck.route truck with
  | [] => Ok e
  | _ =>
    if S (Truck.current_node_index truck) <? length (Truck.route truck) then
      next_node_id ← of_option IndexError
                       (Truck.route truck !! S (Truck.current_node_index truck));
      match get_edge (graph_builder e) current_node_id next_node_id with
      | Some edge =>
          let '(travel_time, r) := DelayModel.get_travel_time edge (rng e) in
          let e := set_rng r e in
          if Py.ltb 0 (Truck.driving_time_since_rest truck)
             && Py.ltb 480 (Truck.driving_time_since_rest truck + travel_time) then
            Ok (schedule_event
                  (Event.new (current_time e) (Truck.id truck) current_node_id
                     START_REST []) e)
          else
            let truck := Truck.set_current_node_index
                           (S (Truck.current_node_index truck)) truck in
            let truck := Truck.set_driving_time_since_rest
                           (Truck.driving_time_since_rest truck + travel_time)%Q truck in
            let truck := Truck.set_current_leg_start_time (current_time e) truck in
            let truck := Truck.set_current_leg_duration travel_time truck in
            let e := set_truck (Event.truck_id event) truck e in
            Ok (schedule_event
                  (Event.new (current_time e + travel_time)%Q (Truck.id truck)
                     next_node_id ARRIVAL_NODE
                     [("travel_duration", DFloat travel_time)]) e)
      | None => Ok e
      end
    else Ok e
  end.

Definition handle_start_rest (event : Event.t) (e : SimulationEngine)
    : exc SimulationEngine :=
  truck ← of_option KeyError (Py.dict_get (trucks e) (Event.truck_id event));
  let truck := Truck.set_previous_status (Some (Truck.status truck)) truck in
  let truck := Truck.set_is_resting true truck in
  let truck := Truck.set_status RESTING truck in
  let e := set_truck (Event.truck_id event) truck e in
  let rest_duration := 60%Q in
  Ok (schedule_event
        (Event.new (current_time e + rest_duration)%Q (Truck.id truck)
           (Event.node_id event) END_REST [("rest_duration", DFloat rest_duration)]) e).

Definition handle_end_rest (event : Event.t) (e : SimulationEngine)
    : exc SimulationEngine :=
  truck ← of_option KeyError (Py.dict_get (trucks e) (Event.truck_id event));
  let truck := Truck.set_is_resting false truck in
  let truck := Truck.set_driving_time_since_rest 0 truck in
  let truck :=
    match truthy_id (Truck.assigned_order_id truck), Truck.previous_status truck with
    | Some _, Some previous =>
        if bool_decide (previous = EN_ROUTE_TO_PICKUP)
           || bool_decide (previous = EN_ROUTE_TO_DELIVERY)
        then Truck.set_status previous truck
        else Truck.set_status EN_ROUTE_TO_DELIVERY truck
    | _, _ => Truck.set_status IDLE truck
    end in
  let truck := Truck.set_previous_status None truck in
  let e := set_truck (Event.truck_id event) truck e in
  Ok (schedule_event
        (Event.new (current_time e) (Truck.id truck) (Event.node_id event)
           DEPART_NODE []) e).

Definition process_event (event : Event.t) (e : SimulationEngine)
    : exc SimulationEngine :=
  match Event.event_type event with
  | TRUCK_SPAWN => handle_truck_spawn event e
  | ORDER_CREATED => handle_order_created event e
  | ARRIVAL_NODE => handle_arrival event e
  | START_SERVICE => handle_start_service event e
  | END_SERVICE => handle_end_service event e
  | DEPART_NODE => handle_depart event e
  | START_REST => handle_start_rest event e
  | END_REST => handle_end_rest event e
  | ORDER_ASSIGNED => Ok e
  end.

Definition step (e : SimulationEngine) : exc SimulationEngine :=
match heapq.heappop entry_lt (event_queue e) with
| None => Ok e
| Some ((time, _, event), queue) => process_event event (advance_to time event queue e)
end.

(** The guard of the [while] loop of [run] *)
Definition run_guard (duration : Q) (e : SimulationEngine) : bool :=
  bool_decide (event_queue e ≠ []) && Py.ltb (current_time e) duration.

(** [run(duration)] without a [step_callback]; [None] when [fuel] turns of
    the loop were not enough. *)
Fixpoint run (fuel : nat) (duration : Q) (e : SimulationEngine)
    : option (exc SimulationEngine) :=
  if run_guard duration e then
    match fuel with
    | 0 => None
    | S fuel' =>
        match step e with
        | Ok e' => run fuel' duration e'
        | Raise x => Some (Raise x)
        end
    end
  else Some (Ok e).

(** [n] calls of [step] *)
Fixpoint steps (n : nat) (e : SimulationEngine) : exc SimulationEngine :=
  match n with
  | 0 => Ok e
  | S n' => e' ← step e; steps n' e'
  end.

End Engine.

(** ** Instances used to run the model

    [nx_reference] computes what the two [networkx] calls return: connected
    components of the undirected projection by breadth-first search from each
    unseen node, and a minimum-weight path by Bellman-Ford relaxation.
    [math_rational] replaces the transcendental functions by rational
    stand-ins, enough to evaluate distances on small examples. *)

Module nx_reference.

Definition neighbours (g : nx.DiGraph) (u : string) : list string :=
  filter (λ v, is_Some (nx.adj g !! (u, v)) ∨ is_Some (nx.adj g !! (v, u))) (nx.nodes g).

Fixpoint bfs (fuel : nat) (g : nx.DiGraph) (seen frontier : list string) : list string :=
  match fuel with
  | 0 => seen
  | S fuel' =>
      match frontier with
      | [] => seen
      | u :: rest =>
          let new := filter (λ v, v ∉ seen) (neighbours g u) in
          bfs fuel' g (seen ++ new) (rest ++ new)
      end
  end.

Definition connected_components (g : nx.DiGraph) : list (list string) :=
  fold_left
    (λ comps u,
       if bool_decide (Exists (λ c : list string, u ∈ c) comps) then comps
       else comps ++ [bfs (S (length (nx.nodes g))) g [u] [u]])
    (nx.nodes g) [].

(** One relaxation of the edge [(u, v)] of weight [w]; [dist] maps a node to
    the weight of the best path found and that path, last node first. *)
Definition relax (dist : gmap string (Q * list string)) (uvw : string * string * Q)
    : gmap string (Q * list string) :=
  let '(u, v, w) := uvw in
  match dist !! u with
  | Some (du, pu) =>
      match dist !! v with
      | Some (dv, _) =>
          if Py.ltb (du + w) dv then <[v := ((du + w)%Q, v :: pu)]> dist else dist
      | None => <[v := ((du + w)%Q, v :: pu)]> dist
      end
  | None => dist
  end.

Definition shortest_path (g : nx.DiGraph) (s t : string) : nx.path_result :=
  if bool_decide (s ∈ nx.nodes g ∧ t ∈ nx.nodes g) then
    let es := (λ kv : string * string * Q, kv) <$> map_to_list (nx.adj g) in
    let dist := Nat.iter (length (nx.nodes g)) (λ d, fold_left relax es d)
                  {[ s := (0%Q, [s]) ]} in
    match dist !! t with
    | Some (_, p) => nx.Path (reverse p)
    | None => nx.NoPath
    end
  else nx.NoNode.

Definition algorithms : nx.algorithms :=
  nx.mk_algorithms shortest_path connected_components.

End nx_reference.

Definition math_rational : math.functions :=
  math.mk (λ x, x) (λ x, (1 - x * x / 2)%Q) (λ x, x) (λ y x, y) (355 # 113)%Q.

(** A generator whose every draw is the same: [random()] gives [u],
    [_randbelow] gives 0 and [gammavariate] gives [g]. *)
Definition constant_rng (u g : Q) : random.state :=
  random.mk_state (λ _, u) (λ _ _, 0) (λ _, g) 0.

(** ** States reached by the engine *)


(** The generator read at position [n] *)
Definition rng_at (n : nat) (r : random.state) : random.state :=
  random.mk_state (random.rand_float r) (random.rand_below r) (random.rand_gamma r) n.

(** What no handler touches except through [schedule_event]: the queue, the
    counter, the clock and the log; and what no handler touches at all: the
    edges of the graph and the oracle behind the generator. *)
Definition same_core (e e' : SimulationEngine) : Prop :=
  event_queue e' = event_queue e ∧ event_counter e' = event_counter e ∧
  current_time e' = current_time e ∧ processed_events e' = processed_events e ∧
  edges (graph_builder e') = edges (graph_builder e) ∧
  rng_at 0 (rng e') = rng_at 0 (rng e).

(** [evolves e e']: [e'] comes from [e] by such updates and by scheduling
    events that are not in the past. *)
Inductive evolves : SimulationEngine → SimulationEngine → Prop :=
  | evolves_refl e : evolves e e
  | evolves_update e e' e'' : evolves e e' → same_core e' e'' → evolves e e''
  | evolves_push e e' event :
      evolves e e' → (current_time e' <= Event.time event)%Q →
      evolves e (schedule_event event e').

(** The queue is a heap; its counters are distinct and below the next one. *)
Definition queue_ok (e : SimulationEngine) : Prop :=
  heapq.heap_ordered entry_lt (event_queue e) ∧
  Forall (λ x : entry, x.1.2 < event_counter e) (event_queue e) ∧
  NoDup ((λ x : entry, x.1.2) <$> event_queue e).

(** No queued event lies in the past. *)
Definition times_ok (e : SimulationEngine) : Prop :=
  Forall (λ x : entry, (current_time e <= x.1.1)%Q) (event_queue e).




(** [(busy_count, capacity)] of a node *)
Definition node_load (node_id : string) (e : SimulationEngine) : option (Z * Z) :=
  (λ node, (Node.busy_count node, Node.capacity node))
    <$> nodes (graph_builder e) !! node_id.

(** Scheduling the seed events, in order, on a fresh engine *)
Definition seeded (gb : GraphBuilder) (r : random.state) (seeds : list Event.t)
    : SimulationEngine :=
  fold_left (λ e event, schedule_event event e) seeds (SimulationEngine_init gb r).

(** ** Example inputs *)

Module Examples.


(** Three nodes: X and O joined both ways, D apart from them *)
Definition isolated_destination : GraphBuilder :=
  let node (id : string) := Node.mk id WAREHOUSE 50 19 1 false [] 0 in
  let gb := add_node (add_node (add_node GraphBuilder_init (node "X")) (node "O")) (node "D") in
  add_edge (add_edge gb (Edge.mk "X" "O" 30 25 "truck")) (Edge.mk "O" "X" 30 25 "truck").

(** Two nodes of capacity 1 a quarter of a minute apart *)
Definition nodeA : Node.t := Node.mk "A" WAREHOUSE 50 19 1 false [] 0.
Definition nodeB : Node.t := Node.mk "B" CUSTOMER 50 (191 # 10) 1 false [] 0.

Definition two_nodes : GraphBuilder :=
  add_node (add_node GraphBuilder_init nodeA) nodeB.

Definition short_edge : GraphBuilder :=
  add_edge (add_edge two_nodes (Edge.mk "A" "B" (1 # 4) (1 # 4) "truck"))
    (Edge.mk "B" "A" (1 # 4) (1 # 4) "truck").

Definition order_details (order_id origin destination : string) : Py.dict detail :=
  [("order_id", DStr order_id); ("origin", DStr origin);
   ("destination", DStr destination)].

(** Two trucks spawned at A and two orders from A to B, all at time 0 *)
Definition two_trucks_seeds : list Event.t :=
  [Event.new 0 "T1" "A" TRUCK_SPAWN [];
   Event.new 0 "T2" "A" TRUCK_SPAWN [];
   Event.new 0 "SYSTEM" "A" ORDER_CREATED (order_details "O1" "A" "B");
   Event.new 0 "SYSTEM" "A" ORDER_CREATED (order_details "O2" "A" "B")].

Definition two_trucks : SimulationEngine :=
  seeded short_edge (constant_rng (1 # 2) 100) two_trucks_seeds.

(** A truck spawned at X and an order from O to D, which no path joins *)
Definition undeliverable_seeds : list Event.t :=
  [Event.new 0 "T1" "X" TRUCK_SPAWN [];
   Event.new 0 "SYSTEM" "O" ORDER_CREATED (order_details "O1" "O" "D")].

Definition undeliverable : SimulationEngine :=
  seeded isolated_destination (constant_rng (1 # 2) 100) undeliverable_seeds.

(** One truck spawned at time 100 *)
Definition late_spawn : SimulationEngine :=
  seeded short_edge (constant_rng (1 # 2) 100) [Event.new 100 "T1" "A" TRUCK_SPAWN []].

(** What the undeliverable order and its truck look like in [e], and the
    kinds of the queued events *)
Definition dispatch_outcome (e : SimulationEngine)
    : option string * option (TruckStatus * list string * option string)
      * list EventType :=
  (Order.status <$> orders e !! "O1",
   (λ truck, (Truck.status truck, Truck.route truck, Truck.assigned_order_id truck))
     <$> Py.dict_get (trucks e) "T1",
   (λ x : entry, Event.event_type x.2) <$> event_queue e).

(** A coordinate section that goes on after the [EOF] line *)
Definition tsplib_after_eof : string :=
  "NAME : demo
NODE_COORD_SECTION
1 0 0
EOF
2 5 5
".

(** A file without a single coordinate line *)
Definition tsplib_no_coords : string :=
  "NAME : empty
TYPE : TSP
NODE_COORD_SECTION
EOF
".

End Examples.

(** * Properties *)

(** ** The heap of [heapq] *)

Section HeapFacts.
Context {A : Type} (lt : A → A → bool).
Hypothesis lt_asym : ∀ a b, lt a b = true → lt b a = false.
Hypothesis le_trans : ∀ a b c, lt b a = false → lt c b = false → lt c a = false.

Import heapq.

Lemma parent_of_div (i : nat) : parent_of i = (i - 1) / 2.
Proof. unfold parent_of. by rewrite Nat.shiftr_div_pow2. Qed.

Lemma parent_of_lt (i : nat) : 0 < i → parent_of i < i.
Proof.
  intros Hi. rewrite parent_of_div.
  pose proof (Nat.div_mod_eq (i - 1) 2). pose proof (Nat.mod_upper_bound (i - 1) 2). lia.
Qed.

Lemma parent_of_child (c p : nat) :
  0 < c → parent_of c = p ↔ c = 2 * p + 1 ∨ c = 2 * p + 2.
Proof.
  intros Hc. rewrite parent_of_div.
  pose proof (Nat.div_mod_eq (c - 1) 2). pose proof (Nat.mod_upper_bound (c - 1) 2). lia.
Qed.

Lemma lt_irrefl (a : A) : lt a a = false.
Proof. destruct (lt a a) eqn:E; [|done]. by rewrite (lt_asym _ _ E) in E. Qed.

(** Two writes that exchange the items at [i] and [j]. *)
Lemma lookup_exchange (l : list A) (i j k : nat) (a b : A) :
  i ≠ j → i < length l → j < length l →
  <[i := a]> (<[j := b]> l) !! k =
    if decide (k = i) then Some a else if decide (k = j) then Some b else l !! k.
Proof.
  intros Hij Hi Hj. destruct (decide (k = i)) as [->|Hki].
  - apply list_lookup_insert_eq. by rewrite length_insert.
  - rewrite list_lookup_insert_ne by done. destruct (decide (k = j)) as [->|Hkj].
    + by apply list_lookup_insert_eq.
    + by rewrite list_lookup_insert_ne.
Qed.

Lemma ordered_above_exchange (l : list A) (pos : nat) (n p : A) :
  ordered_above lt l pos → 0 < pos →
  l !! pos = Some n → l !! parent_of pos = Some p → lt n p = true →
  ordered_above lt (<[parent_of pos := n]> (<[pos := p]> l)) (parent_of pos).
Proof.
  intros [K1 K2] Hpos Hn Hp Hlt.
  pose proof (parent_of_lt pos Hpos) as Hpp.
  pose proof (lookup_lt_Some _ _ _ Hn) as Hlen.
  assert (Hlk : ∀ k, <[parent_of pos := n]> (<[pos := p]> l) !! k =
    if decide (k = parent_of pos) then Some n
    else if decide (k = pos) then Some p else l !! k).
  { intros k. apply lookup_exchange; lia. }
  split.
  - intros i x y Hi Hne. rewrite !Hlk.
    destruct (decide (i = parent_of pos)) as [|_]; [done|].
    destruct (decide (i = pos)) as [->|Hip].
    + rewrite decide_True by done. intros [= <-] [= <-]. by apply lt_asym.
    + intros Hx. destruct (decide (parent_of i = parent_of pos)) as [Hpi|Hpi].
      * intros [= <-].
        apply (le_trans _ p); [by apply lt_asym|]. apply (K1 i); try done. by rewrite Hpi.
      * destruct (decide (parent_of i = pos)) as [Hc|Hc].
        -- intros [= <-]. by apply (K2 i).
        -- intros Hy. by apply (K1 i).
  - intros c x y Hpp0 Hc Hpc. rewrite !Hlk.
    pose proof (parent_of_lt _ Hpp0) as Hgp.
    rewrite (decide_False (P := parent_of (parent_of pos) = parent_of pos)) by lia.
    rewrite (decide_False (P := parent_of (parent_of pos) = pos)) by lia.
    pose proof (parent_of_lt c Hc).
    rewrite (decide_False (P := c = parent_of pos)) by lia.
    intros Hx Hy.
    assert (lt p y = false) as Hpy by (apply (K1 (parent_of pos)); [lia|lia|done|done]).
    destruct (decide (c = pos)) as [->|Hcp].
    + by injection Hx as <-.
    + apply (le_trans _ p); [done|]. apply (K1 c); try done. by rewrite Hpc.
Qed.

Lemma siftdown_loop_ordered (fuel : nat) : ∀ (heap : list A) (newitem : A) (pos : nat),
  pos ≤ fuel → pos < length heap →
  ordered_above lt (<[pos := newitem]> heap) pos →
  heap_ordered lt (siftdown_loop lt fuel heap newitem 0 pos).
Proof.
  assert (Hbase : ∀ (heap : list A) newitem,
    ordered_above lt (<[0 := newitem]> heap) 0 →
    heap_ordered lt (<[0 := newitem]> heap)).
  { intros heap newitem [K1 _] i x y Hi. apply K1; lia. }
  induction fuel as [|fuel IH]; intros heap newitem pos Hfuel Hlen K; simpl.
  - assert (pos = 0) as -> by lia. by apply Hbase.
  - destruct (0 <? pos) eqn:Hpos; [apply Nat.ltb_lt in Hpos|
      apply Nat.ltb_ge in Hpos; assert (pos = 0) as -> by lia; by apply Hbase].
    pose proof (parent_of_lt pos Hpos) as Hpp.
    destruct (heap !! parent_of pos) as [parent|] eqn:Hparent; last first.
    { apply lookup_ge_None in Hparent. lia. }
    destruct (lt newitem parent) eqn:Hlt.
    + apply IH; [lia|rewrite length_insert; lia|].
      rewrite <- (list_insert_insert_eq heap pos parent newitem).
      apply ordered_above_exchange; try done.
      * by apply list_lookup_insert_eq.
      * rewrite list_lookup_insert_ne by lia. done.
    + destruct K as [K1 K2]. intros i x y Hi Hx Hy.
      destruct (decide (i = pos)) as [->|Hne]; [|by apply (K1 i)].
      rewrite list_lookup_insert_eq in Hx by done.
      rewrite list_lookup_insert_ne in Hy by lia. congruence.
Qed.

Lemma siftdown_loop_perm (fuel : nat) : ∀ (heap : list A) (newitem : A) (startpos pos : nat),
  pos < length heap →
  siftdown_loop lt fuel heap newitem startpos pos ≡ₚ <[pos := newitem]> heap.
Proof.
  induction fuel as [|fuel IH]; intros heap newitem startpos pos Hlen; simpl; [done|].
  destruct (startpos <? pos) eqn:Hpos; [apply Nat.ltb_lt in Hpos|done].
  destruct (heap !! parent_of pos) as [parent|] eqn:Hparent; [|done].
  destruct (lt newitem parent); [|done].
  assert (parent_of pos < pos) by (apply parent_of_lt; lia).
  rewrite IH by (rewrite length_insert; lia).
  rewrite <- (list_insert_insert_eq heap pos parent newitem).
  apply Permutation_insert_swap.
  - by apply list_lookup_insert_eq.
  - rewrite list_lookup_insert_ne by lia. done.
Qed.


Lemma heappush_ordered (l : list A) (x : A) :
  heap_ordered lt l → heap_ordered lt (heappush lt l x).
Proof.
  intros H. unfold heappush, _siftdown.
  assert ((l ++ [x]) !! length l = Some x) as Hx.
  { rewrite lookup_app_r by lia. by rewrite Nat.sub_diag. }
  rewrite Hx. apply siftdown_loop_ordered; [lia|rewrite length_app; simpl; lia|].
  rewrite list_insert_id by done. split.
  - intros i a b Hi Hne Ha Hb.
    pose proof (lookup_lt_Some _ _ _ Ha) as Hlen. rewrite length_app in Hlen. simpl in Hlen.
    pose proof (parent_of_lt i Hi).
    rewrite lookup_app_l in Ha by lia. rewrite lookup_app_l in Hb by lia. by apply (H i).
  - intros c a b Hpos Hc Hpc Ha _.
    pose proof (lookup_lt_Some _ _ _ Ha) as Hlen. rewrite length_app in Hlen. simpl in Hlen.
    apply parent_of_child in Hpc; lia.
Qed.

Lemma heappush_perm (l : list A) (x : A) : heappush lt l x ≡ₚ x :: l.
Proof.
  unfold heappush, _siftdown.
  assert ((l ++ [x]) !! length l = Some x) as Hx.
  { rewrite lookup_app_r by lia. by rewrite Nat.sub_diag. }
  rewrite Hx, siftdown_loop_perm by (rewrite length_app; simpl; lia).
  rewrite list_insert_id by done. by rewrite Permutation_app_comm.
Qed.

Lemma siftup_loop_spec (fuel : nat) : ∀ (heap heap' : list A) (pos pos' : nat),
  length heap ≤ pos + fuel → pos < length heap →
  ordered_around lt heap pos →
  siftup_loop lt fuel heap (length heap) pos = (heap', pos') →
  length heap' = length heap ∧ pos' < length heap ∧ length heap ≤ 2 * pos' + 1 ∧
  ordered_around lt heap' pos' ∧
  (∀ x, <[pos' := x]> heap' ≡ₚ <[pos := x]> heap).
Proof.
  induction fuel as [|fuel IH]; intros heap heap' pos pos' Hfuel Hlen Ho; cbn [siftup_loop].
  { intros [= <- <-]. repeat split; try lia; try apply Ho; done. }
  destruct (2 * pos + 1 <? length heap) eqn:Hc; last first.
  { apply Nat.ltb_ge in Hc. intros [= <- <-]. repeat split; try lia; try apply Ho; done. }
  apply Nat.ltb_lt in Hc.
  set (c := if (2 * pos + 1 + 1 <? length heap)
                 && negb (item_lt lt heap (2 * pos + 1) (2 * pos + 1 + 1))
            then 2 * pos + 1 + 1 else 2 * pos + 1).
  assert (Hcs : c < length heap ∧ (c = 2 * pos + 1 ∨ c = 2 * pos + 2) ∧
    ∀ i a b, 0 < i → parent_of i = pos → i ≠ c →
      heap !! i = Some a → heap !! c = Some b → lt a b = false).
  { subst c. destruct (2 * pos + 1 + 1 <? length heap) eqn:Hr; cbn [andb negb].
    - apply Nat.ltb_lt in Hr. unfold item_lt.
      destruct (heap !! (2 * pos + 1)) as [u|] eqn:Hu;
        [|apply lookup_ge_None in Hu; lia].
      destruct (heap !! (2 * pos + 1 + 1)) as [v|] eqn:Hv;
        [|apply lookup_ge_None in Hv; lia].
      destruct (lt u v) eqn:Huv; cbn [andb negb].
      + split; [lia|]. split; [lia|]. intros i a b Hi Hpi Hne Ha Hb.
        apply parent_of_child in Hpi; [|done].
        assert (i = 2 * pos + 1 + 1) as -> by lia.
        rewrite Hu in Hb. rewrite Hv in Ha. injection Ha as <-. injection Hb as <-.
        by apply lt_asym.
      + split; [lia|]. split; [lia|]. intros i a b Hi Hpi Hne Ha Hb.
        apply parent_of_child in Hpi; [|done].
        assert (i = 2 * pos + 1) as -> by lia. congruence.
    - apply Nat.ltb_ge in Hr. split; [lia|]. split; [lia|].
      intros i a b Hi Hpi Hne Ha Hb. apply parent_of_child in Hpi; [|done].
      apply lookup_lt_Some in Ha. lia. }
  destruct Hcs as (Hclen & Hcpos & Hmin).
  destruct (heap !! c) as [child|] eqn:Hchild; [|apply lookup_ge_None in Hchild; lia].
  intros Hloop. rewrite <- (length_insert heap pos child) in Hloop. apply IH in Hloop; [| rewrite length_insert; lia | rewrite length_insert; lia |].
  - rewrite length_insert in Hloop. destruct Hloop as (H1 & H2 & H3 & H4 & H5).
    do 4 (split; [done|]). intros x. rewrite H5.
    rewrite <- (list_insert_insert_eq heap pos child x).
    apply Permutation_insert_swap.
    + by apply list_lookup_insert_eq.
    + rewrite list_lookup_insert_ne by lia. done.
  - assert (parent_of c = pos) as Hpc by (apply parent_of_child; lia).
    destruct Ho as [O1 O2]. split.
    + intros i x y Hi Hic Hpic. destruct (decide (i = pos)) as [->|Hip].
      * rewrite list_lookup_insert_eq by done. pose proof (parent_of_lt pos Hi).
        rewrite list_lookup_insert_ne by lia. intros [= <-] Hy.
        apply (O2 c); try done. lia.
      * rewrite list_lookup_insert_ne by done. intros Hx.
        destruct (decide (parent_of i = pos)) as [Hpi|Hpi].
        -- rewrite Hpi, list_lookup_insert_eq by done. intros [= <-].
           by apply (Hmin i).
        -- rewrite list_lookup_insert_ne by done. intros Hy. by apply (O1 i).
    + intros d x y Hc0 Hd Hpd. rewrite Hpc.
      pose proof (parent_of_lt d Hd).
      rewrite list_lookup_insert_ne by lia. rewrite list_lookup_insert_eq by done.
      intros Hx [= <-]. apply (O1 d); try done; try lia. by rewrite Hpd.
Qed.

Lemma ordered_around_leaf (l : list A) (pos : nat) (x : A) :
  ordered_around lt l pos → length l ≤ 2 * pos + 1 → pos < length l →
  ordered_above lt (<[pos := x]> l) pos.
Proof.
  intros [O1 O2] Hleaf Hlen. split.
  - intros i a b Hi Hne Ha Hb.
    pose proof (lookup_lt_Some _ _ _ Ha) as Hil. rewrite length_insert in Hil.
    assert (parent_of i ≠ pos) as Hpi.
    { intros Hpi. apply parent_of_child in Hpi; lia. }
    rewrite list_lookup_insert_ne in Ha by done.
    rewrite list_lookup_insert_ne in Hb by done. by apply (O1 i).
  - intros c a b Hpos Hc Hpc Ha _.
    pose proof (lookup_lt_Some _ _ _ Ha) as Hil. rewrite length_insert in Hil.
    apply parent_of_child in Hpc; lia.
Qed.

Lemma siftup_root_spec (heap : list A) :
  heap ≠ [] → ordered_around lt heap 0 →
  heap_ordered lt (_siftup lt heap 0) ∧ _siftup lt heap 0 ≡ₚ heap.
Proof.
  intros Hne Ho. unfold _siftup.
  destruct heap as [|newitem heap0] eqn:Hheap; [done|]. rewrite <- Hheap in *.
  assert (heap !! 0 = Some newitem) as -> by (by rewrite Hheap).
  assert (0 < length heap) as Hlen by (rewrite Hheap; simpl; lia).
  destruct (siftup_loop lt (length heap) heap (length heap) 0) as [heap' pos'] eqn:Hloop.
  apply siftup_loop_spec in Hloop; [|lia|done|done].
  destruct Hloop as (H1 & H2 & H3 & H4 & H5).
  unfold _siftdown. rewrite list_lookup_insert_eq by lia. split.
  - apply siftdown_loop_ordered; [lia|rewrite length_insert; lia|].
    rewrite list_insert_insert_eq. apply ordered_around_leaf; [done|lia|lia].
  - rewrite siftdown_loop_perm by (rewrite length_insert; lia).
    rewrite list_insert_insert_eq, H5. by rewrite list_insert_id by (by rewrite Hheap).
Qed.

Lemma heap_ordered_root_min (l : list A) (m : A) :
  heap_ordered lt l → l !! 0 = Some m → ∀ x, x ∈ l → lt x m = false.
Proof.
  intros H Hm x Hx. apply list_elem_of_lookup in Hx as [i Hi]. revert x Hi.
  induction (lt_wf i) as [i _ IH]. intros x Hi.
  destruct (decide (i = 0)) as [->|Hne].
  - rewrite Hm in Hi. injection Hi as <-. apply lt_irrefl.
  - assert (0 < i) as Hpos by lia. pose proof (parent_of_lt i Hpos) as Hp.
    pose proof (lookup_lt_Some _ _ _ Hi) as Hlen.
    destruct (l !! parent_of i) as [y|] eqn:Hy; [|apply lookup_ge_None in Hy; lia].
    apply (le_trans _ y); [by apply (IH (parent_of i))|by apply (H i)].
Qed.

Lemma heappop_spec (l l' : list A) (x : A) :
  heap_ordered lt l → heappop lt l = Some (x, l') →
  heap_ordered lt l' ∧ l ≡ₚ x :: l' ∧ ∀ y, y ∈ l → lt y x = false.
Proof.
  intros H. unfold heappop. destruct (last l) as [lastelt|] eqn:Hlast; [|done].
  apply last_Some in Hlast as [h ->]. rewrite removelast_last.
  destruct h as [|r t] eqn:Hh.
  - intros [= <- <-]. split; [by intros i a b _ Hi|]. split; [done|].
    intros y ->%list_elem_of_singleton. apply lt_irrefl.
  - rewrite <- Hh in *. intros [= <- <-].
    assert (ordered_around lt (<[0 := lastelt]> h) 0) as Ho.
    { split; [|intros; lia]. intros i a b Hi _ Hpi.
      rewrite !list_lookup_insert_ne by lia. intros Ha Hb.
      apply (H i); [done| |]; by apply lookup_app_l_Some. }
    destruct (siftup_root_spec (<[0 := lastelt]> h)) as [Hord Hperm]; [by rewrite Hh|done|].
    split; [done|]. split.
    + rewrite Hperm, Hh. simpl. constructor. by rewrite <- Permutation_cons_append.
    + apply heap_ordered_root_min; [done|by rewrite Hh].
Qed.

Lemma heappop_None (l : list A) : heappop lt l = None ↔ l = [].
Proof.
  unfold heappop. destruct l as [|a l] using rev_ind; [done|].
  rewrite last_snoc, removelast_last. split; [by destruct l|by destruct l].
Qed.

End HeapFacts.

(** ** The TSPLIB reader *)

(** C8.  The reader does not stop at the [EOF] marker: in
    [Examples.tsplib_after_eof] the coordinate line [2 5 5] follows the line
    [EOF] and still yields the node 2. *)
Theorem parse_tsplib_reads_past_EOF :
  parse_tsplib Examples.tsplib_after_eof =
    ("demo", [TSPNode.mk 1 0 0; TSPNode.mk 2 5 5]).
Proof. vm_compute. reflexivity. Qed.

(** The [EOF] line is skipped like an empty one: it leaves the state of the
    reading loop as it is, so the lines after it are read as before. *)
Lemma parse_line_EOF (st : parse_state) : parse_line st "EOF" = st.
Proof. reflexivity. Qed.

(** C7, as stated, fails: on a file without coordinate lines [parse_tsplib]
    returns the name and an empty node list to its caller. *)
Lemma parse_tsplib_returns_empty :
  parse_tsplib Examples.tsplib_no_coords = ("empty", []).
Proof. vm_compute. reflexivity. Qed.

(** C7, amended.  [parse_tsplib] has no failure of its own; it is its caller
    [create_from_tsplib] that raises [ValueError] when the node list comes
    back empty, whatever the file, the neighbour count, the builder and the
    generator. *)
Theorem create_from_tsplib_no_nodes (m : math.functions) (alg : nx.algorithms)
    (content : string) (k_neighbors : nat) (gb : GraphBuilder) (r : random.state) :
  (parse_tsplib content).2 = [] →
  create_from_tsplib m alg content k_neighbors gb r = Raise ValueError.
Proof.
  intros Hempty. unfold create_from_tsplib.
  destruct (parse_tsplib content) as [problem_name tsp_nodes]. simpl in Hempty.
  by rewrite Hempty.
Qed.

Lemma create_from_tsplib_no_nodes_witness :
  (parse_tsplib Examples.tsplib_no_coords).2 = [] ∧
  create_from_tsplib math_rational nx_reference.algorithms
    Examples.tsplib_no_coords 4 GraphBuilder_init (constant_rng (1 # 2) 100)
  = Raise ValueError.
Proof.
  split; [vm_compute; reflexivity|].
  apply create_from_tsplib_no_nodes. vm_compute. reflexivity.
Defined.

(** ** Node capacity *)

(** C1.  Two trucks that arrive at a free node at the same instant both pass
    the test [busy_count < capacity] of [handle_arrival], because the slot is
    only taken by [handle_start_service]: after twelve steps of
    [Examples.two_trucks] node B, of capacity 1, serves two trucks. *)
Theorem busy_count_exceeds_capacity :
  (λ e, (node_load "B" e, Event.event_type <$> processed_events e))
    <$> steps nx_reference.algorithms 12 Examples.two_trucks
  = Ok (Some (2%Z, 1%Z),
        [TRUCK_SPAWN; TRUCK_SPAWN; ORDER_CREATED; ORDER_CREATED;
         ORDER_ASSIGNED; DEPART_NODE; ORDER_ASSIGNED; DEPART_NODE;
         ARRIVAL_NODE; ARRIVAL_NODE; START_SERVICE; START_SERVICE]).
Proof. vm_compute. reflexivity. Qed.



(** ** Comparisons on floats and on queue items *)

Lemma ltb_true (a b : Q) : Py.ltb a b = true ↔ (a < b)%Q.
Proof.
  unfold Py.ltb. rewrite negb_true_iff, <- not_true_iff_false, Qle_bool_iff.
  split; [apply Qnot_le_lt|apply Qlt_not_le].
Qed.

Lemma ltb_false (a b : Q) : Py.ltb a b = false ↔ (b <= a)%Q.
Proof. unfold Py.ltb. by rewrite negb_false_iff, Qle_bool_iff. Qed.

Lemma eqb_true (a b : Q) : Py.eqb a b = true ↔ (a == b)%Q.
Proof. apply Qeq_bool_iff. Qed.

Lemma eqb_false (a b : Q) : Py.eqb a b = false ↔ ¬ (a == b)%Q.
Proof. unfold Py.eqb. by rewrite <- not_true_iff_false, Qeq_bool_iff. Qed.

(** Turns the boolean tests among the hypotheses into propositions. *)
Ltac tests_to_props :=
  repeat match goal with
  | H : Py.ltb _ _ = true |- _ => apply ltb_true in H
  | H : Py.ltb _ _ = false |- _ => apply ltb_false in H
  | H : Py.eqb _ _ = true |- _ => apply eqb_true in H
  | H : Py.eqb _ _ = false |- _ => apply eqb_false in H
  | H : (_ =? _) = true |- _ => apply Nat.eqb_eq in H
  | H : (_ =? _) = false |- _ => apply Nat.eqb_neq in H
  | H : (_ <? _) = true |- _ => apply Nat.ltb_lt in H
  | H : (_ <? _) = false |- _ => apply Nat.ltb_ge in H
  end.

(** Case analysis on every test of a tuple comparison in the goal. *)
Ltac entry_cases :=
  unfold entry_lt, Event.eqb, Event.ltb; simpl;
  repeat match goal with
  | |- context [Py.eqb ?a ?b] => destruct (Py.eqb a b) eqn:?; simpl
  | |- context [Nat.eqb ?a ?b] => destruct (Nat.eqb a b) eqn:?; simpl
  | |- context [Py.ltb ?a ?b] => destruct (Py.ltb a b) eqn:?; simpl
  | |- context [Nat.ltb ?a ?b] => destruct (Nat.ltb a b) eqn:?; simpl
  end.

Lemma entry_lt_asym (a b : entry) : entry_lt a b = true → entry_lt b a = false.
Proof.
  destruct a as [[t1 c1] e1], b as [[t2 c2] e2].
  entry_cases; intros; try done; tests_to_props; try lia; lra.
Qed.

Lemma entry_le_trans (a b c : entry) :
  entry_lt b a = false → entry_lt c b = false → entry_lt c a = false.
Proof.
  destruct a as [[t1 c1] e1], b as [[t2 c2] e2], c as [[t3 c3] e3].
  entry_cases; intros; try done; tests_to_props; try lia; lra.
Qed.


Lemma entry_lt_false (t t' : Q) (c c' : nat) (ev ev' : Event.t) :
  entry_lt (t', c', ev') (t, c, ev) = false →
  (t <= t')%Q ∧ ((t == t')%Q → c ≤ c').
Proof.
  entry_cases; intros; try done; tests_to_props; (split; [lra|intros; try lia; try lra]).
Qed.



(** ** Delays *)

Lemma max_ge_left (a b : Q) : (a <= Py.max a b)%Q.
Proof. unfold Py.max. destruct (Py.ltb a b) eqn:E; tests_to_props; lra. Qed.

Lemma advance_oracle (r : random.state) : rng_at 0 (random.advance r) = rng_at 0 r.
Proof. reflexivity. Qed.

Lemma get_service_time_spec (node : Node.t) (r r' : random.state) (s : Q) :
  DelayModel.get_service_time node r = (s, r') →
  (60 <= s)%Q ∧ rng_at 0 r' = rng_at 0 r.
Proof.
  unfold DelayModel.get_service_time, random.gammavariate. intros [= <- <-].
  split; [apply max_ge_left|reflexivity].
Qed.

Lemma get_travel_time_spec (edge : Edge.t) (r r' : random.state) (t : Q) :
  DelayModel.get_travel_time edge r = (t, r') →
  (1 <= t)%Q ∧ rng_at 0 r' = rng_at 0 r.
Proof.
  unfold DelayModel.get_travel_time, random.uniform, random.random. simpl.
  destruct (Py.ltb _ _); intros [= <- <-]; (split; [apply max_ge_left|reflexivity]).
Qed.

(** ** Handlers only schedule events, never in the past *)

Arguments DelayModel.get_service_time : simpl never.
Arguments DelayModel.get_travel_time : simpl never.
Arguments schedule_event : simpl never.

Lemma same_core_refl (e : SimulationEngine) : same_core e e.
Proof. by repeat split. Qed.

Lemma evolves_trans (e1 e2 e3 : SimulationEngine) :
  evolves e1 e2 → evolves e2 e3 → evolves e1 e3.
Proof.
  intros H12 H23. induction H23 as [|e2 e e' _ IH Hcore|e2 e event _ IH Htime].
  - done.
  - by eapply evolves_update; [apply IH|].
  - by apply evolves_push; [apply IH|].
Qed.

Lemma evolves_current_time (e e' : SimulationEngine) :
  evolves e e' → current_time e' = current_time e.
Proof.
  induction 1 as [|e e' e'' _ IH Hcore|e e' event _ IH _]; [done| |done].
  destruct Hcore as (_ & _ & -> & _). done.
Qed.

Lemma evolves_processed_events (e e' : SimulationEngine) :
  evolves e e' → processed_events e' = processed_events e.
Proof.
  induction 1 as [|e e' e'' _ IH Hcore|e e' event _ IH _]; [done| |done].
  destruct Hcore as (_ & _ & _ & -> & _). done.
Qed.



(** Closes [evolves e e'] when [e'] is [e] under setters and
    [schedule_event]; the times of the events are left as goals. *)
(** Reduces the binds and matches of [H] that met a value. *)
Ltac exc_simpl H := cbn [mbind exc_bind of_option] in H; cbv beta iota in H.

Ltac evolves_step :=
  lazymatch goal with
  | |- evolves ?e ?e => apply evolves_refl
  | |- evolves _ (schedule_event _ _) => apply evolves_push; [evolves_step|unfold schedule_event; cbn]
  | |- evolves _ (set_truck _ _ ?e') =>
      apply (evolves_update _ e'); [evolves_step|repeat split; cbn; done]
  | |- evolves _ (set_order _ _ ?e') =>
      apply (evolves_update _ e'); [evolves_step|repeat split; cbn; done]
  | |- evolves _ (set_node _ _ ?e') =>
      apply (evolves_update _ e'); [evolves_step|repeat split; cbn; done]
  | |- evolves _ (set_pending_orders _ ?e') =>
      apply (evolves_update _ e'); [evolves_step|repeat split; cbn; done]
  | |- evolves _ _ => idtac
  end.

Section EngineFrame.
Context (alg : nx.algorithms).

Lemma assign_order_to_truck_evolves order_key order truck_key truck e e' :
  assign_order_to_truck alg order_key order truck_key truck e = Ok e' → evolves e e'.
Proof.
  unfold assign_order_to_truck. intros H.
  repeat match type of H with
  | context [mbind _ ?m] => destruct m eqn:?; exc_simpl H; [|done]
  | context [if ?b then _ else _] => destruct b eqn:?; exc_simpl H
  end; simplify_eq; evolves_step; lra.
Qed.

Lemma dispatcher_logic_evolves e e' :
  dispatcher_logic alg e = Ok e' → evolves e e'.
Proof.
  unfold dispatcher_logic. intros H.
  destruct (pending_orders e) as [|order_id rest]; [simplify_eq; apply evolves_refl|].
  destruct (filter _ (trucks e)) as [|[truck_key best_truck] idle]; [simplify_eq; apply evolves_refl|].
  destruct (orders e !! order_id) as [order|]; [|done]. exc_simpl H.
  destruct (assign_order_to_truck _ _ _ _ _ _) as [e1|] eqn:H1; [|done]. exc_simpl H.
  simplify_eq. apply assign_order_to_truck_evolves in H1. evolves_step. done.
Qed.

Lemma promote_queued_evolves node_key node e :
  evolves e (promote_queued node_key node e).
Proof.
  unfold promote_queued. destruct (Node.queue node); evolves_step. lra.
Qed.

Lemma process_event_evolves event e e' :
  process_event alg event e = Ok e' → evolves e e'.
Proof.
  unfold process_event. destruct (Event.event_type event).
  - (* arrival *)
    unfold handle_arrival. intros H.
    repeat match type of H with
    | context [mbind _ ?m] => destruct m eqn:?; exc_simpl H; [|done]
    | context [if ?b then _ else _] => destruct b eqn:?; exc_simpl H
    end; simplify_eq; evolves_step; lra.
  - (* start_service *)
    unfold handle_start_service. intros H.
    destruct (get_node _ _) as [node|]; [|done]. exc_simpl H.
    destruct (DelayModel.get_service_time _ _) as [s r] eqn:Hs.
    apply get_service_time_spec in Hs as [Hs Hr]. injection H as <-.
    apply evolves_push; [|unfold schedule_event; cbn; lra].
    apply (evolves_update _ (set_node (Event.node_id event)
             (Node.set_busy_count (Node.busy_count node + 1) node) e));
      [evolves_step|repeat split; cbn; done].
  - (* end_service *)
    unfold handle_end_service. intros H.
    destruct (get_node _ _) as [node|]; [|done]. exc_simpl H.
    destruct (of_option _ _) as [truck|]; [|done]. exc_simpl H.
    repeat match type of H with
    | context [mbind _ ?m] => destruct m eqn:?; exc_simpl H; [|done]
    | context [match ?b with Some _ => _ | None => _ end] => destruct b eqn:?; exc_simpl H
    | context [if ?b then _ else _] => destruct b eqn:?; exc_simpl H
    end; simplify_eq;
    (eapply evolves_trans; [|apply promote_queued_evolves]); evolves_step; lra.
  - (* depart *)
    unfold handle_depart. intros H.
    destruct (of_option _ _) as [truck|]; [|done]. exc_simpl H.
    destruct (S _ <? _) in H;
      [|destruct (Truck.route truck); injection H as <-; apply evolves_refl].
    destruct (Truck.route truck) eqn:Hroute; [injection H as <-; apply evolves_refl|].
    destruct (of_option _ _) as [next_node_id|]; [|done]. exc_simpl H.
    destruct (get_edge _ _ _) as [edge|]; [|injection H as <-; apply evolves_refl].
    destruct (DelayModel.get_travel_time _ _) as [t r] eqn:Ht.
    apply get_travel_time_spec in Ht as [Ht Hr].
    destruct (_ && _); injection H as <-.
    + apply evolves_push; [|unfold schedule_event; cbn; lra].
      apply (evolves_update _ e); [apply evolves_refl|repeat split; cbn; done].
    + apply evolves_push; [|unfold schedule_event; cbn; lra].
      apply (evolves_update _ (set_rng r e)); [|repeat split; cbn; done].
      apply (evolves_update _ e); [apply evolves_refl|repeat split; cbn; done].
  - (* truck_spawn *)
    unfold handle_truck_spawn. intros H. apply dispatcher_logic_evolves in H.
    eapply evolves_trans; [|done]. evolves_step.
  - (* start_rest *)
    unfold handle_start_rest. intros H.
    destruct (of_option _ _) as [truck|]; [|done]. exc_simpl H.
    simplify_eq. evolves_step. lra.
  - (* end_rest *)
    unfold handle_end_rest. intros H.
    destruct (of_option _ _) as [truck|]; [|done]. exc_simpl H.
    simplify_eq. evolves_step. lra.
  - (* order_created *)
    unfold handle_order_created. intros H.
    repeat match type of H with
    | context [mbind _ ?m] => destruct m eqn:?; exc_simpl H; [|done]
    end.
    apply dispatcher_logic_evolves in H.
    eapply evolves_trans; [|done]. evolves_step.
  - (* order_assigned *)
    intros [= <-]. apply evolves_refl.
Qed.

End EngineFrame.



(** ** The event queue *)

Lemma entry_heappush_ordered (l : list entry) (x : entry) :
  heapq.heap_ordered entry_lt l → heapq.heap_ordered entry_lt (heapq.heappush entry_lt l x).
Proof. apply heappush_ordered; [apply entry_lt_asym|apply entry_le_trans]. Qed.

Lemma entry_heappush_perm (l : list entry) (x : entry) :
  heapq.heappush entry_lt l x ≡ₚ x :: l.
Proof. apply heappush_perm. Qed.

Lemma entry_heappop_spec (l l' : list entry) (x : entry) :
  heapq.heap_ordered entry_lt l → heapq.heappop entry_lt l = Some (x, l') →
  heapq.heap_ordered entry_lt l' ∧ l ≡ₚ x :: l' ∧ ∀ y, y ∈ l → entry_lt y x = false.
Proof. apply heappop_spec; [apply entry_lt_asym|apply entry_le_trans]. Qed.

Lemma schedule_event_queue (event : Event.t) (e : SimulationEngine) :
  event_queue (schedule_event event e) ≡ₚ
    (Event.time event, event_counter e, event) :: event_queue e.
Proof. apply entry_heappush_perm. Qed.

Lemma queue_ok_init (gb : GraphBuilder) (r : random.state) :
  queue_ok (SimulationEngine_init gb r).
Proof. split; [by intros i x y _ Hi|]. split; [constructor|constructor]. Qed.

Lemma queue_ok_schedule (event : Event.t) (e : SimulationEngine) :
  queue_ok e → queue_ok (schedule_event event e).
Proof.
  intros (Hheap & Hlt & Hnodup). split; [by apply entry_heappush_ordered|].
  split.
  - rewrite schedule_event_queue. constructor; [unfold schedule_event; cbn; lia|].
    apply (Forall_impl _ _ _ Hlt). intros x Hx. unfold schedule_event; cbn [event_counter]. lia.
  - rewrite schedule_event_queue. simpl. constructor; [|done].
    intros Hin. apply list_elem_of_fmap in Hin as (x & Hc & Hx).
    rewrite Forall_forall in Hlt. apply Hlt in Hx. lia.
Qed.

Lemma queue_ok_evolves (e e' : SimulationEngine) :
  evolves e e' → queue_ok e → queue_ok e'.
Proof.
  induction 1 as [|e e' e'' _ IH Hcore|e e' event _ IH _]; intros Hok; [done| |].
  - destruct Hcore as (Hq & Hc & _). unfold queue_ok. rewrite Hq, Hc. by apply IH.
  - by apply queue_ok_schedule, IH.
Qed.

Lemma times_ok_schedule (event : Event.t) (e : SimulationEngine) :
  (current_time e <= Event.time event)%Q → times_ok e → times_ok (schedule_event event e).
Proof.
  intros Ht Hok. unfold times_ok. rewrite schedule_event_queue. by constructor.
Qed.

Lemma times_ok_evolves (e e' : SimulationEngine) :
  evolves e e' → times_ok e → times_ok e'.
Proof.
  induction 1 as [|e e' e'' _ IH Hcore|e e' event _ IH Ht]; intros Hok; [done| |].
  - destruct Hcore as (Hq & _ & Hc & _). unfold times_ok. rewrite Hq, Hc. by apply IH.
  - by apply times_ok_schedule, IH.
Qed.

Section Steps.
Context (alg : nx.algorithms).

(** [step] on an empty queue returns at once; otherwise it handles the popped
    event in the advanced state. *)
Lemma step_cases (e e' : SimulationEngine) :
  step alg e = Ok e' →
  (event_queue e = [] ∧ e' = e) ∨
  ∃ t c event queue,
    heapq.heappop entry_lt (event_queue e) = Some ((t, c, event), queue) ∧
    process_event alg event (advance_to t event queue e) = Ok e'.
Proof.
  unfold step. destruct (heapq.heappop _ _) as [[[[t c] event] queue]|] eqn:Hpop.
  - intros H. right. by exists t, c, event, queue.
  - apply heappop_None in Hpop. intros [= <-]. by left.
Qed.

Lemma queue_ok_advance_to t c event queue (e : SimulationEngine) :
  queue_ok e →
  heapq.heappop entry_lt (event_queue e) = Some ((t, c, event), queue) →
  queue_ok (advance_to t event queue e).
Proof.
  intros (Hheap & Hlt & Hnodup) Hpop.
  apply entry_heappop_spec in Hpop as (Hheap' & Hperm & _); [|done].
  split; [done|]. simpl. rewrite Hperm in Hlt, Hnodup.
  split; [by apply Forall_cons in Hlt as [_ ?]|].
  simpl in Hnodup. by apply NoDup_cons in Hnodup as [_ ?].
Qed.

Lemma queue_ok_step (e e' : SimulationEngine) :
  queue_ok e → step alg e = Ok e' → queue_ok e'.
Proof.
  intros Hok [[_ ->]|(t & c & event & queue & Hpop & Hproc)]%step_cases; [done|].
  eapply queue_ok_evolves; [by eapply process_event_evolves|].
  by eapply queue_ok_advance_to.
Qed.


(** The popped event is at or after the clock, and what stays queued is at
    or after the popped event. *)
Lemma times_ok_advance_to t c event queue (e : SimulationEngine) :
  queue_ok e → times_ok e →
  heapq.heappop entry_lt (event_queue e) = Some ((t, c, event), queue) →
  (current_time e <= t)%Q ∧ times_ok (advance_to t event queue e).
Proof.
  intros (Hheap & _) Htimes Hpop.
  apply entry_heappop_spec in Hpop as (_ & Hperm & Hmin); [|done].
  unfold times_ok in *. split.
  - rewrite Hperm in Htimes. by apply Forall_cons in Htimes as [? _].
  - simpl. apply Forall_forall. intros [[t' c'] event'] Hin. simpl.
    assert ((t', c', event') ∈ event_queue e) as Hin'.
    { rewrite Hperm. by apply list_elem_of_further. }
    by apply Hmin, entry_lt_false in Hin' as [? _].
Qed.

Lemma step_current_time (e e' : SimulationEngine) :
  queue_ok e → times_ok e → step alg e = Ok e' →
  (current_time e <= current_time e')%Q ∧ times_ok e'.
Proof.
  intros Hq Ht [[_ ->]|(t & c & event & queue & Hpop & Hproc)]%step_cases.
  { split; [lra|done]. }
  apply process_event_evolves in Hproc.
  destruct (times_ok_advance_to _ _ _ _ _ Hq Ht Hpop) as [Hle Ht'].
  split; [|by eapply times_ok_evolves].
  by rewrite (evolves_current_time _ _ Hproc).
Qed.

Lemma steps_invariants (n : nat) : ∀ e e' : SimulationEngine,
  queue_ok e → times_ok e → steps alg n e = Ok e' → queue_ok e' ∧ times_ok e'.
Proof.
  induction n as [|n IH]; intros e e' Hq Ht; simpl.
  - by intros [= <-].
  - destruct (step alg e) as [e1|] eqn:Hstep; [|done]. cbn [mbind exc_bind].
    apply IH; [by eapply queue_ok_step|by eapply step_current_time].
Qed.

Lemma seeded_invariants (seeds : list Event.t) : ∀ e : SimulationEngine,
  Forall (λ event, (current_time e <= Event.time event)%Q) seeds →
  queue_ok e → times_ok e →
  let e' := fold_left (λ e event, schedule_event event e) seeds e in
  queue_ok e' ∧ times_ok e'.
Proof.
  induction seeds as [|event seeds IH]; intros e Hseeds Hq Ht; simpl; [done|].
  apply Forall_cons in Hseeds as [Hev Hseeds].
  apply IH; [done|by apply queue_ok_schedule|by apply times_ok_schedule].
Qed.


(** C5.  When every seed event is scheduled at a time that is not negative
    before the first step, the clock never goes back from one step to the
    next; that handlers only schedule at the clock plus a delay that is not
    negative is [process_event_evolves]. *)
Theorem current_time_monotone (gb : GraphBuilder) (r : random.state)
    (seeds : list Event.t) (n : nat) (e1 e2 : SimulationEngine) :
  Forall (λ event, (0 <= Event.time event)%Q) seeds →
  steps alg n (seeded gb r seeds) = Ok e1 →
  step alg e1 = Ok e2 →
  (current_time e1 <= current_time e2)%Q.
Proof.
  intros Hseeds Hsteps Hstep.
  destruct (seeded_invariants seeds (SimulationEngine_init gb r)) as [Hq Ht];
    [done|apply queue_ok_init|constructor|].
  destruct (steps_invariants n _ _ Hq Ht Hsteps) as [Hq1 Ht1].
  by destruct (step_current_time _ _ Hq1 Ht1 Hstep).
Qed.

End Steps.

(** ** Trucks *)






Section Rest.
Context (alg : nx.algorithms) (L : Q → Prop).
Hypothesis L_proper : ∀ a b, (a == b)%Q → L a → L b.









End Rest.




Section RestRule.
Context (alg : nx.algorithms).




(** C10.  When the clock is before the horizon and the event that [heappop]
    returns is at or after it, [run] still makes one step: it handles that
    event, logs it and leaves the clock at its time, with any supply of loop
    turns but none. *)
Theorem run_handles_event_at_horizon (fuel : nat) (duration : Q)
    (e : SimulationEngine) (t : Q) (c : nat) (event : Event.t) (queue : list entry) :
  heapq.heappop entry_lt (event_queue e) = Some ((t, c, event), queue) →
  (current_time e < duration)%Q →
  (duration <= t)%Q →
  run alg (S fuel) duration e = Some (step alg e) ∧
  step alg e = process_event alg event (advance_to t event queue e) ∧
  ∀ e', step alg e = Ok e' →
    processed_events e' = processed_events e ++ [event] ∧
    current_time e' = t ∧ (duration <= current_time e')%Q.
Proof.
  intros Hpop Hnow Hlate.
  assert (step alg e = process_event alg event (advance_to t event queue e)) as Hstep.
  { unfold step. by rewrite Hpop. }
  assert (∀ e', step alg e = Ok e' →
    processed_events e' = processed_events e ++ [event] ∧ current_time e' = t) as Hafter.
  { intros e' He'. rewrite Hstep in He'. apply process_event_evolves in He'.
    by rewrite (evolves_processed_events _ _ He'), (evolves_current_time _ _ He'). }
  split; [|split; [done|]].
  - cbn [run]. unfold run_guard at 1.
    assert (event_queue e ≠ []) as Hne.
    { intros Hnil. rewrite Hnil in Hpop. done. }
    rewrite bool_decide_eq_true_2 by done.
    apply ltb_true in Hnow. rewrite Hnow. cbn [andb].
    destruct (step alg e) as [e'|x] eqn:He'; [|done].
    destruct (Hafter e' eq_refl) as [_ Htime].
    assert (run_guard duration e' = false) as Hguard.
    { unfold run_guard. apply andb_false_iff. right. apply ltb_false. by rewrite Htime. }
    destruct fuel; cbn [run]; by rewrite Hguard.
  - intros e' He'. destruct (Hafter e' He') as [Hlog Htime].
    by rewrite Hlog, Htime.
Qed.

End RestRule.



(** ** The dispatcher *)

(** A route of fewer than two nodes cancels the order: the dispatcher
    returns with the order cancelled and dropped from the pending list, the
    queue and the counter as they were (so no [order_assigned] event), and
    the trucks untouched. *)
Lemma short_route_cancels (alg : nx.algorithms) (e : SimulationEngine)
    (order_id : string) (rest : list string) (truck_key : string) (truck : Truck.t)
    (idle : list (string * Truck.t)) (order : Order.t)
    (path_to_pickup path_to_delivery : list string) :
  pending_orders e = order_id :: rest →
  filter (λ kt : string * Truck.t, Truck.status kt.2 = IDLE) (trucks e)
    = (truck_key, truck) :: idle →
  orders e !! order_id = Some order →
  (if bool_decide (Truck.current_node_id truck ≠ Order.origin_node_id order)
   then get_shortest_path alg (graph_builder e)
          (Truck.current_node_id truck) (Order.origin_node_id order)
   else Ok []) = Ok path_to_pickup →
  get_shortest_path alg (graph_builder e)
    (Order.origin_node_id order) (Order.destination_node_id order)
    = Ok path_to_delivery →
  length (combine_routes path_to_pickup path_to_delivery) < 2 →
  ∃ e', dispatcher_logic alg e = Ok e' ∧
    orders e' !! order_id = Some (Order.set_status "CANCELLED" order) ∧
    event_queue e' = event_queue e ∧ event_counter e' = event_counter e ∧
    trucks e' = trucks e ∧ pending_orders e' = rest.
Proof.
  intros Hpending Hidle Horder Hpickup Hdelivery Hshort.
  unfold dispatcher_logic. rewrite Hpending, Hidle, Horder.
  cbn [mbind exc_bind of_option]. unfold assign_order_to_truck.
  destruct (bool_decide _) eqn:Haway.
  - rewrite Hpickup. cbn [mbind exc_bind]. rewrite Hdelivery. cbn [mbind exc_bind].
    apply Nat.ltb_lt in Hshort. rewrite Hshort. cbn [mbind exc_bind].
    eexists. split; [reflexivity|]. cbn. rewrite Hpending.
    by rewrite lookup_insert_eq.
  - injection Hpickup as <-. cbn [mbind exc_bind]. rewrite Hdelivery. cbn [mbind exc_bind].
    apply Nat.ltb_lt in Hshort. rewrite Hshort. cbn [mbind exc_bind].
    eexists. split; [reflexivity|]. cbn. rewrite Hpending.
    by rewrite lookup_insert_eq.
Qed.

(** C6.  An order whose destination no path reaches is not always cancelled:
    in [Examples.undeliverable] the truck is at X, a path leads from X to the
    origin O and none from O to the destination D.  The route is the pickup
    path alone, two nodes long, so after the spawn and the order creation the
    order is assigned, the truck is en route with it, and [order_assigned]
    and [depart_node] are queued. *)
Theorem unroutable_order_is_assigned :
  Examples.dispatch_outcome
    <$> steps nx_reference.algorithms 2 Examples.undeliverable
  = Ok (Some "ASSIGNED",
        Some (EN_ROUTE_TO_PICKUP, ["X"; "O"], Some "O1"),
        [ORDER_ASSIGNED; DEPART_NODE]).
Proof. vm_compute. reflexivity. Qed.

(** ** The theorems at work on the examples *)




Lemma current_time_monotone_witness :
  Forall (λ event, (0 <= Event.time event)%Q) Examples.two_trucks_seeds ∧
  ∃ e2, step nx_reference.algorithms Examples.two_trucks = Ok e2 ∧
    (current_time Examples.two_trucks <= current_time e2)%Q.
Proof.
  assert (Forall (λ event, (0 <= Event.time event)%Q) Examples.two_trucks_seeds) as Hseeds.
  { repeat constructor; simpl; lra. }
  split; [exact Hseeds|].
  destruct (step nx_reference.algorithms Examples.two_trucks) as [e2|] eqn:Hstep;
    [|vm_compute in Hstep; discriminate].
  exists e2. split; [reflexivity|].
  exact (current_time_monotone nx_reference.algorithms _ _ _ 0 _ e2 Hseeds eq_refl Hstep).
Defined.

Lemma run_handles_event_at_horizon_witness :
  run nx_reference.algorithms 1 50 Examples.late_spawn
    = Some (step nx_reference.algorithms Examples.late_spawn) ∧
  ∀ e', step nx_reference.algorithms Examples.late_spawn = Ok e' →
    (Event.time <$> processed_events e') = [100%Q] ∧ current_time e' = 100%Q.
Proof.
  destruct (run_handles_event_at_horizon nx_reference.algorithms 0 50
              Examples.late_spawn 100 0 (Event.new 100 "T1" "A" TRUCK_SPAWN []) [])
    as (Hrun & _ & Hafter).
  - vm_compute. reflexivity.
  - vm_compute. reflexivity.
  - vm_compute. discriminate.
  - split; [exact Hrun|]. intros e' He'.
    destruct (Hafter e' He') as (Hlog & Htime & _). rewrite Hlog. by split.
Defined.
